(** * mcp-python: the persistent Python session server ([server.py])

    A shallow embedding of the three tools of [src/mcp_python/server.py]
    ([execute_python], [install_package], [list_variables]) over an explicit
    session state, followed by the properties of the specification.

    The Python interpreter ([exec], [eval], [repr], [traceback]) and the
    operating system ([subprocess.run]) are collaborators of the server, not
    part of it: the tools are written against an [Interpreter] interface.
    [MiniPy] at the end of the definitions is an instance of that interface
    for a small fragment of Python, so that the tools can be run on concrete
    code strings. *)

From Stdlib Require Import String Ascii List Bool Arith ZArith Lia.
From Stdlib Require Import DecimalString DecimalPos DecimalN.
Import ListNotations.
Open Scope string_scope.

(** ** Python strings

    A [str] is a [string]; a character is a code point below 256. *)

Definition LF : ascii := "010"%char.

(** The one-character string holding a line feed, written ['\n'] in Python. *)
Definition nl : string := String LF "".

(** The code point of [c] lies between [lo] and [hi]. *)
Definition in_range (lo hi : nat) (c : ascii) : bool :=
  let n := nat_of_ascii c in ((lo <=? n)%nat && (n <=? hi)%nat)%bool.

(** [str.isspace] on one character. *)
Definition py_isspace (c : ascii) : bool :=
  in_range 9 13 c || in_range 28 32 c || in_range 133 133 c || in_range 160 160 c.

(** [s.lstrip()] *)
Fixpoint lstrip (s : string) : string :=
  match s with
  | "" => ""
  | String c r => if py_isspace c then lstrip r else s
  end.

(** [s.rstrip()] *)
Fixpoint rstrip (s : string) : string :=
  match s with
  | "" => ""
  | String c r =>
      match rstrip r with
      | "" => if py_isspace c then "" else String c ""
      | r' => String c r'
      end
  end.

(** [s.strip()] *)
Definition strip (s : string) : string := rstrip (lstrip s).

(** [s.split(sep)] for a one-character separator: never the empty list. *)
Fixpoint split (sep : ascii) (s : string) : list string :=
  match s with
  | "" => [""]
  | String c r =>
      if Ascii.eqb c sep then "" :: split sep r
      else match split sep r with
           | [] => [String c ""]
           | w :: ws => String c w :: ws
           end
  end.

(** [l[-1]] and [l[0]]; on the empty list Python raises [IndexError], which
    [split] never returns ([split_not_nil]). *)
Definition item_last (l : list string) : string := last l "".
Definition item_first (l : list string) : string := hd "" l.

(** [sep.join(l)] *)
Definition join (sep : string) (l : list string) : string := String.concat sep l.

(** [s.startswith(p)] *)
Definition startswith (p s : string) : bool := String.prefix p s.

Definition nonempty (s : string) : bool :=
  match s with "" => false | _ => true end.

(** Every character of [s] passes the test [f]. *)
Fixpoint string_forall (f : ascii -> bool) (s : string) : bool :=
  match s with
  | "" => true
  | String c r => f c && string_forall f r
  end.

(** The last character of [s] exists and is not white space. *)
Fixpoint ends_solid (s : string) : bool :=
  match s with
  | "" => false
  | String c "" => negb (py_isspace c)
  | String _ r => ends_solid r
  end.

(** ** The package-name pattern

    [re.match("^[A-Za-z0-9][A-Za-z0-9._-]*$", package)].  Without the
    MULTILINE flag [^] matches at the start only, and [$] matches at the end
    of the string and also just before a line feed that ends the string. *)

Definition is_upper (c : ascii) : bool := in_range 65 90 c.
Definition is_lower (c : ascii) : bool := in_range 97 122 c.
Definition is_digit (c : ascii) : bool := in_range 48 57 c.

(** The class [[A-Za-z0-9]]. *)
Definition is_alnum (c : ascii) : bool := is_upper c || is_lower c || is_digit c.

(** The class [[A-Za-z0-9._-]]. *)
Definition is_pkg_char (c : ascii) : bool :=
  is_alnum c || Ascii.eqb c "." || Ascii.eqb c "_" || Ascii.eqb c "-".

(** [$] at the current position. *)
Definition at_dollar (s : string) : bool :=
  match s with
  | "" => true
  | String c "" => Ascii.eqb c LF
  | _ => false
  end.

(** [[A-Za-z0-9._-]*$] from the current position (the greedy star backtracks). *)
Fixpoint match_tail (s : string) : bool :=
  at_dollar s
  || match s with
     | "" => false
     | String c r => is_pkg_char c && match_tail r
     end.

Definition re_match_package (package : string) : bool :=
  match package with
  | "" => false
  | String c r => is_alnum c && match_tail r
  end.

(** The pattern in the words of the specification, to compare
    [re_match_package] with: one alphanumeric character followed by any run
    of alphanumerics, dot, underscore, hyphen. *)
Definition filename_safe (package : string) : bool :=
  match package with
  | "" => false
  | String c r => is_alnum c && string_forall is_pkg_char r
  end.

(** ** Exceptions

    The built-in classes the server names or the interpreter raises, with
    their bases, and classes defined by the executed code. *)

Inductive exc_class : Type :=
| BaseException | Exception | SystemExit | KeyboardInterrupt | GeneratorExit
| ArithmeticError | ZeroDivisionError | AttributeError
| ImportError | ModuleNotFoundError
| LookupError | IndexError | KeyError
| NameError | UnboundLocalError
| OSError | FileNotFoundError | PermissionError
| RuntimeError | RecursionError
| SyntaxError | IndentationError | TabError
| TypeError | ValueError | UnicodeError | StopIteration | SystemError
| SubprocessError | CalledProcessError
| UserClass (name : string) (base : exc_class).

Definition exc_class_eq_dec (c d : exc_class) : {c = d} + {c <> d}.
Proof. decide equality. apply string_dec. Defined.

Definition exc_class_eqb (c d : exc_class) : bool :=
  if exc_class_eq_dec c d then true else false.

(** The proper ancestors of a class, nearest first. *)
Fixpoint bases (c : exc_class) : list exc_class :=
  match c with
  | BaseException => []
  | Exception | SystemExit | KeyboardInterrupt | GeneratorExit => [BaseException]
  | ArithmeticError | AttributeError | ImportError | LookupError | NameError
  | OSError | RuntimeError | SyntaxError | TypeError | ValueError
  | StopIteration | SystemError | SubprocessError => [Exception; BaseException]
  | ZeroDivisionError => [ArithmeticError; Exception; BaseException]
  | ModuleNotFoundError => [ImportError; Exception; BaseException]
  | IndexError | KeyError => [LookupError; Exception; BaseException]
  | UnboundLocalError => [NameError; Exception; BaseException]
  | FileNotFoundError | PermissionError => [OSError; Exception; BaseException]
  | RecursionError => [RuntimeError; Exception; BaseException]
  | IndentationError => [SyntaxError; Exception; BaseException]
  | TabError => [IndentationError; SyntaxError; Exception; BaseException]
  | UnicodeError => [ValueError; Exception; BaseException]
  | CalledProcessError => [SubprocessError; Exception; BaseException]
  | UserClass _ b => b :: bases b
  end.

Definition issubclass (c d : exc_class) : bool :=
  exc_class_eqb c d || existsb (exc_class_eqb d) (bases c).

Definition class_name (c : exc_class) : string :=
  match c with
  | BaseException => "BaseException" | Exception => "Exception"
  | SystemExit => "SystemExit" | KeyboardInterrupt => "KeyboardInterrupt"
  | GeneratorExit => "GeneratorExit" | ArithmeticError => "ArithmeticError"
  | ZeroDivisionError => "ZeroDivisionError" | AttributeError => "AttributeError"
  | ImportError => "ImportError" | ModuleNotFoundError => "ModuleNotFoundError"
  | LookupError => "LookupError" | IndexError => "IndexError"
  | KeyError => "KeyError" | NameError => "NameError"
  | UnboundLocalError => "UnboundLocalError" | OSError => "OSError"
  | FileNotFoundError => "FileNotFoundError" | PermissionError => "PermissionError"
  | RuntimeError => "RuntimeError" | RecursionError => "RecursionError"
  | SyntaxError => "SyntaxError" | IndentationError => "IndentationError"
  | TabError => "TabError" | TypeError => "TypeError" | ValueError => "ValueError"
  | UnicodeError => "UnicodeError" | StopIteration => "StopIteration"
  | SystemError => "SystemError"
  | SubprocessError => "subprocess.SubprocessError"
  | CalledProcessError => "subprocess.CalledProcessError"
  | UserClass n _ => n
  end.

(** An exception object: its class, [str(e)] (for a [SyntaxError] its message
    without the location), and the [stderr] attribute that
    [subprocess.CalledProcessError] carries (empty on other classes). *)
Record exception : Type := mkExc {
  exc_type : exc_class;
  exc_str : string;
  exc_stderr : string
}.

(** [isinstance(e, (c1, ..., cn))], the test of an [except] clause. *)
Definition isinstance (e : exception) (cs : list exc_class) : bool :=
  existsb (issubclass (exc_type e)) cs.

(** How a piece of Python ends: with a value, with an exception, or never. *)
Inductive completion (A : Type) : Type :=
| Done (a : A)
| Raised (e : exception)
| Diverged.
Arguments Done {A} a.
Arguments Raised {A} e.
Arguments Diverged {A}.

(** A completion that [except Exception:] can take care of: a value, or an
    exception that is an instance of [Exception]. *)
Definition contained {A : Type} (c : completion A) : bool :=
  match c with
  | Done _ => true
  | Raised e => isinstance e [Exception]
  | Diverged => false
  end.

(** ** Dictionaries

    A Python [dict] with string keys keeps its keys unique and in insertion
    order: an association list, updated in place when the key is present. *)

Definition dict (V : Type) : Type := list (string * V).

Fixpoint dict_get {V : Type} (k : string) (d : dict V) : option V :=
  match d with
  | [] => None
  | (k', v) :: r => if String.eqb k' k then Some v else dict_get k r
  end.

(** [d[k] = v] *)
Fixpoint dict_set {V : Type} (k : string) (v : V) (d : dict V) : dict V :=
  match d with
  | [] => [(k, v)]
  | (k', v') :: r =>
      if String.eqb k' k then (k', v) :: r else (k', v') :: dict_set k v r
  end.

(** [d.clear()] *)
Definition dict_clear {V : Type} (d : dict V) : dict V := [].

Definition dict_keys {V : Type} (d : dict V) : list string := map fst d.

(** The representation invariant of a dictionary: no key twice. *)
Definition dict_wf {V : Type} (d : dict V) : Prop := NoDup (dict_keys d).

(** ** The interpreter and the operating system

    What the server asks of its collaborators.  [World] is everything besides
    the namespace that running code can read or change: the objects the
    values refer to, the installed packages, the file system. *)

(** One [exec(code, namespace)] under [redirect_stdout] and [redirect_stderr]:
    the namespace and the world as the run leaves them, what the run wrote
    into the two buffers, and how it ended. *)
Record exec_run (V W : Type) : Type := mkExecRun {
  run_namespace : dict V;
  run_world : W;
  run_stdout : string;
  run_stderr : string;
  run_end : completion unit
}.
Arguments mkExecRun {V W}.
Arguments run_namespace {V W}.
Arguments run_world {V W}.
Arguments run_stdout {V W}.
Arguments run_stderr {V W}.
Arguments run_end {V W}.

(** One [eval(source, namespace)]. *)
Record eval_run (V W : Type) : Type := mkEvalRun {
  eval_namespace : dict V;
  eval_world : W;
  eval_end : completion V
}.
Arguments mkEvalRun {V W}.
Arguments eval_namespace {V W}.
Arguments eval_world {V W}.
Arguments eval_end {V W}.

(** What the operating system makes of a command line. *)
Inductive spawned : Type :=
| Exited (returncode : Z) (out err : string)
| SpawnFailed (e : exception)
| SpawnBlocks.

Class Interpreter : Type := {
  value : Type;
  World : Type;
  (** the value of [__builtins__] in the server module *)
  builtins : value;
  py_exec : string -> dict value -> World -> exec_run value World;
  py_eval : string -> dict value -> World -> eval_run value World;
  (** [repr(v)]: it runs the [__repr__] of the value, which may be code of
      the session, so it can raise, never return, and change the world; the
      names of the namespace are bound by [exec] and [eval] only *)
  py_repr : value -> World -> completion string * World;
  (** [traceback.format_exc()] while [e] is being handled *)
  format_exc : exception -> string;
  os_spawn : list string -> World -> spawned * World
}.

(** The last line of the traceback of an exception that has neither notes
    nor parts: the class and [str(e)], or for a [SyntaxError] the class and
    its message. *)
Definition format_final_exc_line (e : exception) : string :=
  if issubclass (exc_type e) SyntaxError
  then class_name (exc_type e) ++ ": "
       ++ (if nonempty (exc_str e) then exc_str e else "<no detail available>") ++ nl
  else class_name (exc_type e)
       ++ (if nonempty (exc_str e) then ": " ++ exc_str e else "") ++ nl.

(** [str(z)] and [repr(z)] of an integer: its decimal numeral. *)
Definition str_of_Z (z : Z) : string := NilZero.string_of_int (Z.to_int z).

(** [subprocess.CompletedProcess] *)
Record completed_process : Type := mkCompleted {
  returncode : Z;
  stdout : string;
  stderr : string
}.

(** [subprocess.run(argv, capture_output=True, text=True, check=check)];
    the server reads the [stderr] of a [CalledProcessError], not its [str]. *)
Definition subprocess_run `{PY : Interpreter} (argv : list string) (check : bool)
    (w : World) : completion completed_process * World :=
  match os_spawn argv w with
  | (Exited rc out err, w') =>
      if check && negb (rc =? 0)%Z
      then (Raised (mkExc CalledProcessError
                      ("Command '[" ++ join ", " (map (fun a => "'" ++ a ++ "'") argv)
                       ++ "]' returned non-zero exit status " ++ str_of_Z rc ++ ".")
                      err), w')
      else (Done (mkCompleted rc out err), w')
  | (SpawnFailed e, w') => (Raised e, w')
  | (SpawnBlocks, w') => (Diverged, w')
  end.

(** ** The server

    [global_namespace] is the module-level dictionary shared by the three
    tools; a session pairs it with the world.  A tool call returns its text
    (or fails to), leaves a session behind, and is observed through the runs
    it asked of the interpreter and of the operating system. *)

Inductive tool_result : Type :=
| Returns (text : string)      (* [[types.TextContent(type="text", text=text)]] *)
| Raises (e : exception)       (* the exception leaves the tool function *)
| Hangs.                       (* the call never returns *)

Inductive event : Type :=
| EvExec (code : string)
| EvEval (source : string)
| EvSubprocess (argv : list string).

Section Server.
Context `{PY : Interpreter}.

Record session : Type := mkSession {
  global_namespace : dict value;
  world : World
}.

Record tool_run : Type := mkRun {
  result : tool_result;
  after : session;
  events : list event
}.

(** The session at import time of the module. *)
Definition initial_session (w : World) : session :=
  mkSession [("__builtins__", builtins)] w.

(** The handler [except Exception:] of [execute_python] (lines 59-61); an
    exception it does not match leaves the function. *)
Definition except_Exception (e : exception) : tool_result :=
  if isinstance e [Exception]
  then Returns ("Error executing code:" ++ nl ++ format_exc e)
  else Raises e.

(** The handler [except (SyntaxError, ValueError, NameError):] around the
    evaluation of the last line (lines 54-55); an exception it does not match
    goes on to [except Exception:]. *)
Definition except_fallback (e : exception) : tool_result :=
  if isinstance e [SyntaxError; ValueError; NameError]
  then Returns "Code executed successfully (no output)"
  else except_Exception e.

Definition execute_python (code : string) (reset : bool) (s : session) : tool_run :=
  if reset then
    let ns := dict_clear (global_namespace s) in
    let ns := dict_set "__builtins__" builtins ns in
    mkRun (Returns "Python session reset. All variables cleared.")
          (mkSession ns (world s)) []
  else
    (* try: with redirect_stdout(stdout), redirect_stderr(stderr): exec(...) *)
    let r := py_exec code (global_namespace s) (world s) in
    let s1 := mkSession (run_namespace r) (run_world r) in
    match run_end r with
    | Done _ =>
        let output := run_stdout r in
        let errors := run_stderr r in
        let result := "" in
        let result :=
          if nonempty output then result ++ "Output:" ++ nl ++ output else result in
        let result :=
          if nonempty errors then result ++ nl ++ "Errors:" ++ nl ++ errors else result in
        if negb (nonempty output) && negb (nonempty errors) then
          let last_line := item_last (split LF (strip code)) in
          let v := py_eval last_line (global_namespace s1) (world s1) in
          let s2 := mkSession (eval_namespace v) (eval_world v) in
          let evs := [EvExec code; EvEval last_line] in
          match eval_end v with
          | Done last_value =>
              (* result = f"Result: {repr(last_value)}" *)
              let (text, w3) := py_repr last_value (world s2) in
              let s3 := mkSession (global_namespace s2) w3 in
              match text with
              | Done text => mkRun (Returns ("Result: " ++ text)) s3 evs
              | Raised e => mkRun (except_fallback e) s3 evs
              | Diverged => mkRun Hangs s3 evs
              end
          | Raised e => mkRun (except_fallback e) s2 evs
          | Diverged => mkRun Hangs s2 evs
          end
        else mkRun (Returns result) s1 [EvExec code]
    | Raised e => mkRun (except_Exception e) s1 [EvExec code]
    | Diverged => mkRun Hangs s1 [EvExec code]
    end.

(** The handler [except subprocess.CalledProcessError as e:] of
    [install_package] (lines 87-88). *)
Definition except_CalledProcessError (e : exception) : tool_result :=
  if isinstance e [CalledProcessError]
  then Returns ("Failed to install package:" ++ nl ++ exc_stderr e)
  else Raises e.

Definition install_package (package : string) (s : session) : tool_run :=
  if negb (re_match_package package) then
    mkRun (Returns ("Invalid package name: " ++ package)) s []
  else
    (* ctx.info(...) writes to the log of the transport only *)
    let argv := ["uv"; "pip"; "install"; package] in
    match subprocess_run argv true (world s) with
    | (Done process, w1) =>
        let s1 := mkSession (global_namespace s) w1 in
        if negb (returncode process =? 0)%Z then
          mkRun (Returns ("Failed to install package: " ++ stderr process))
                s1 [EvSubprocess argv]
        else
          let stmt := "import " ++ item_first (split "[" package) in
          let r := py_exec stmt (global_namespace s1) (world s1) in
          let s2 := mkSession (run_namespace r) (run_world r) in
          let evs := [EvSubprocess argv; EvExec stmt] in
          match run_end r with
          | Done _ =>
              mkRun (Returns ("Successfully installed and imported " ++ package)) s2 evs
          | Raised e =>
              if isinstance e [ImportError]
              then mkRun (Returns ("Package installed but import failed: " ++ exc_str e))
                         s2 evs
              else mkRun (except_CalledProcessError e) s2 evs
          | Diverged => mkRun Hangs s2 evs
          end
    | (Raised e, w1) =>
        mkRun (except_CalledProcessError e) (mkSession (global_namespace s) w1)
              [EvSubprocess argv]
    | (Diverged, w1) =>
        mkRun Hangs (mkSession (global_namespace s) w1) [EvSubprocess argv]
    end.

(** The test of the comprehension in [list_variables] (line 95). *)
Definition listed (k : string) : bool :=
  negb (startswith "_" k) && negb (String.eqb k "__builtins__").

(** The comprehension [{k: repr(v) for k, v in global_namespace.items() if
    ...}] (lines 93-96) from the entries [items] on: the entries that pass
    the test are printed one after the other and inserted into [vars_dict];
    the first [repr] that does not return ends the comprehension. *)
Fixpoint comprehension (items : dict value) (w : World) (vars_dict : dict string)
    : completion (dict string) * World :=
  match items with
  | [] => (Done vars_dict, w)
  | (k, v) :: rest =>
      if listed k then
        match py_repr v w with
        | (Done text, w') => comprehension rest w' (dict_set k text vars_dict)
        | (Raised e, w') => (Raised e, w')
        | (Diverged, w') => (Diverged, w')
        end
      else comprehension rest w vars_dict
  end.

(** [list_variables] has no [try]: an exception of the comprehension leaves
    the function. *)
Definition list_variables (s : session) : tool_run :=
  let (vars_dict, w) := comprehension (global_namespace s) (world s) [] in
  let s1 := mkSession (global_namespace s) w in
  match vars_dict with
  | Done [] => mkRun (Returns "No variables in current session.") s1 []
  | Done vars_dict =>
      let var_list := join nl (map (fun kv => fst kv ++ " = " ++ snd kv) vars_dict) in
      mkRun (Returns ("Current session variables:" ++ nl ++ nl ++ var_list)) s1 []
  | Raised e => mkRun (Raises e) s1 []
  | Diverged => mkRun Hangs s1 []
  end.

(** The entries the specification lists: the key does not start with an
    underscore and is not the reserved key. *)
Definition starts_with_underscore (k : string) : bool :=
  match k with
  | String c _ => Ascii.eqb c "_"
  | "" => false
  end.

Definition visible (k : string) : bool :=
  negb (starts_with_underscore k) && negb (String.eqb k "__builtins__").

(** The text the specification describes for a list of entries, given the
    printed representation of the values: one line [key = repr] per entry, or
    the fixed message when there is none. *)
Definition listing (shown : value -> string) (entries : dict value) : string :=
  match entries with
  | [] => "No variables in current session."
  | _ =>
      "Current session variables:" ++ nl ++ nl
      ++ join nl (map (fun kv => fst kv ++ " = " ++ shown (snd kv)) entries)
  end.

(** A sequence of calls of [execute_python] without reset, one after the
    other on the shared session. *)
Definition execute_all (codes : list string) (s : session) : session :=
  fold_left (fun st code => after (execute_python code false st)) codes s.

End Server.

(** ** MiniPy: an interpreter for a fragment of Python

    An instance of [Interpreter] on which the tools run.  The fragment has one
    simple statement per line:

      stmt  ::= pass | raise NAME | import NAME (. NAME)* | NAME = expr | expr
      expr  ::= NAME.append(arith) | NAME.pop() | print(arith)
              | print(arith, file=sys.stderr) | arith
      arith ::= atom (+ atom)*
      atom  ::= prim | - prim
      prim  ::= INT | None | NAME | []

    with decimal integer literals, blanks and [#] comments; a NAME is an
    ASCII identifier that is neither a keyword nor [__debug__].  Values are
    integers, [None], lists (objects on a heap, so that two names may share
    one list), modules, the built-in exception classes, [print] and the
    dictionary of the built-ins.  Of the [builtins] module the fragment knows
    [print] and the exception classes, and it calls nothing but the built-in
    [print].  A string outside the grammar is reported as a syntax error.
    The limit on the decimal digits of an integer is the one CPython starts
    with, 4300. *)

Module MiniPy.

Inductive mvalue : Type :=
| VInt (z : Z)
| VNone
| VList (loc : nat)
| VModule (name : string)
| VClass (c : exc_class)
| VBuiltinFn (name : string)
| VBuiltinsDict.                  (* [builtins.__dict__] *)

(** The world: the list objects by address, the packages that can be
    imported, what the package manager can install, if it is on the PATH at
    all, and the text that [repr] gives for the dictionary of the built-ins.
    A package is known by its dotted name; a distribution of the index
    installs one or more packages. *)
Record mworld : Type := mkWorld {
  heap : list (list mvalue);
  importable : dict string;             (* dotted name to the file it is loaded from *)
  package_index : dict (dict string);   (* distribution to the packages it installs *)
  uv_on_path : bool;
  builtins_repr : string
}.

(** *** Lexing a line *)

Inductive token : Type :=
| TName (s : string)
| TInt (n : N)
| TAssign | TPlus | TMinus | TDot | TComma
| TLParen | TRParen | TLBrack | TRBrack.

Definition is_word_start (c : ascii) : bool :=
  is_upper c || is_lower c || Ascii.eqb c "_".
Definition is_word_char (c : ascii) : bool := is_word_start c || is_digit c.
Definition is_blank (c : ascii) : bool := Ascii.eqb c " " || Ascii.eqb c "009".

Definition symbol (c : ascii) : option token :=
  if Ascii.eqb c "=" then Some TAssign
  else if Ascii.eqb c "+" then Some TPlus
  else if Ascii.eqb c "-" then Some TMinus
  else if Ascii.eqb c "." then Some TDot
  else if Ascii.eqb c "," then Some TComma
  else if Ascii.eqb c "(" then Some TLParen
  else if Ascii.eqb c ")" then Some TRParen
  else if Ascii.eqb c "[" then Some TLBrack
  else if Ascii.eqb c "]" then Some TRBrack
  else None.

(** [sys.int_info.default_max_str_digits]: an integer is not converted from
    or to a decimal numeral of more digits. *)
Definition max_str_digits : nat := 4300.

(** A decimal literal: a run of at most [max_str_digits] digits, with a
    leading zero only when the literal is zero. *)
Definition int_literal (ds : string) : option N :=
  if (max_str_digits <? String.length ds)%nat then None
  else
    match NilZero.uint_of_string ds with
    | Some d =>
        let n := N.of_uint d in
        if String.prefix "0" ds && negb (n =? 0)%N then None else Some n
    | None => None
    end.

(** The word or number the lexer is in the middle of. *)
Inductive pending : Type :=
| PNone
| PWord (w : string)
| PNum (ds : string).

Definition flush (p : pending) : option (list token) :=
  match p with
  | PNone => Some []
  | PWord w => Some [TName w]
  | PNum ds => option_map (fun n => [TInt n]) (int_literal ds)
  end.

Definition continues (p : pending) (c : ascii) : bool :=
  match p with
  | PNone => false
  | PWord _ => is_word_char c
  | PNum _ => is_digit c
  end.

Definition extend (p : pending) (c : ascii) : pending :=
  match p with
  | PNone => PNone
  | PWord w => PWord (w ++ String c "")
  | PNum ds => PNum (ds ++ String c "")
  end.

(** The tokens of a line, [None] on a character no token starts with. *)
Fixpoint lex (p : pending) (s : string) : option (list token) :=
  match s with
  | "" => flush p
  | String c r =>
      if continues p c then lex (extend p c) r
      else
        match flush p with
        | None => None
        | Some ts =>
            option_map (app ts)
              (if is_word_start c then lex (PWord (String c "")) r
               else if is_digit c then lex (PNum (String c "")) r
               else if is_blank c then lex PNone r
               else if Ascii.eqb c "#" then Some []
               else match symbol c with
                    | Some t => option_map (cons t) (lex PNone r)
                    | None => None
                    end)
        end
  end.

(** *** Parsing *)

Inductive expr : Type :=
| EInt (n : N)
| ENone
| EName (x : string)
| EEmptyList
| ENeg (e : expr)
| EAdd (a b : expr)
| EAppend (x : string) (arg : expr)
| EPop (x : string)
| EPrint (arg : expr) (to_stderr : bool).

Inductive stmt : Type :=
| SPass
| SRaise (x : string)
| SImport (top : string) (rest : list string)    (* [import top.rest1.rest2] *)
| SAssign (x : string) (e : expr)
| SExpr (e : expr).

Definition keywords : list string :=
  ["False"; "None"; "True"; "and"; "as"; "assert"; "async"; "await"; "break";
   "class"; "continue"; "def"; "del"; "elif"; "else"; "except"; "finally";
   "for"; "from"; "global"; "if"; "import"; "in"; "is"; "lambda"; "nonlocal";
   "not"; "or"; "pass"; "raise"; "return"; "try"; "while"; "with"; "yield"].

Definition is_keyword (x : string) : bool := existsb (String.eqb x) keywords.

(** A word that is not a NAME: a keyword, or [__debug__], which stands for a
    constant and cannot be bound. *)
Definition is_reserved (x : string) : bool := is_keyword x || String.eqb x "__debug__".

Definition parse_prim (ts : list token) : option expr :=
  match ts with
  | [TInt n] => Some (EInt n)
  | [TName x] =>
      if String.eqb x "None" then Some ENone
      else if is_reserved x then None else Some (EName x)
  | [TLBrack; TRBrack] => Some EEmptyList
  | _ => None
  end.

Definition parse_atom (ts : list token) : option expr :=
  match ts with
  | TMinus :: r => option_map ENeg (parse_prim r)
  | _ => parse_prim ts
  end.

(** The runs of tokens between the [+] signs. *)
Fixpoint summands (ts : list token) : list (list token) :=
  match ts with
  | [] => [[]]
  | TPlus :: r => [] :: summands r
  | t :: r =>
      match summands r with
      | [] => [[t]]
      | g :: gs => (t :: g) :: gs
      end
  end.

Fixpoint parse_sum (acc : expr) (gs : list (list token)) : option expr :=
  match gs with
  | [] => Some acc
  | g :: gs' =>
      match parse_atom g with
      | Some e => parse_sum (EAdd acc e) gs'
      | None => None
      end
  end.

Definition parse_arith (ts : list token) : option expr :=
  match summands ts with
  | [] => None
  | g :: gs =>
      match parse_atom g with
      | Some e => parse_sum e gs
      | None => None
      end
  end.

(** The tokens of an argument, up to the first [,] or [)]. *)
Fixpoint argument (ts : list token) : list token * list token :=
  match ts with
  | [] => ([], [])
  | TComma :: _ | TRParen :: _ => ([], ts)
  | t :: r => let (a, rest) := argument r in (t :: a, rest)
  end.

Definition is_name (x : string) (t : token) : bool :=
  match t with TName y => String.eqb x y | _ => false end.

Definition parse_expr (ts : list token) : option expr :=
  match ts with
  | TName x :: TDot :: TName m :: TLParen :: r =>
      if is_reserved x then None
      else if String.eqb m "append" then
        match argument r with
        | (a, [TRParen]) => option_map (EAppend x) (parse_arith a)
        | _ => None
        end
      else if String.eqb m "pop" then
        match r with
        | [TRParen] => Some (EPop x)
        | _ => None
        end
      else None
  | TName f :: TLParen :: r =>
      if String.eqb f "print" then
        match argument r with
        | (a, [TRParen]) => option_map (fun e => EPrint e false) (parse_arith a)
        | (a, [TComma; kw; TAssign; md; TDot; attr; TRParen]) =>
            if is_name "file" kw && is_name "sys" md && is_name "stderr" attr
            then option_map (fun e => EPrint e true) (parse_arith a)
            else None
        | _ => None
        end
      else None
  | _ => parse_arith ts
  end.

(** The words after the first of a dotted name: [. NAME . NAME ...]; they
    are not bound, so [__debug__] may be among them. *)
Fixpoint dotted_rest (ts : list token) : option (list string) :=
  match ts with
  | [] => Some []
  | TDot :: TName x :: r =>
      if is_keyword x then None else option_map (cons x) (dotted_rest r)
  | _ => None
  end.

Definition parse_stmt (ts : list token) : option stmt :=
  match ts with
  | [TName k] =>
      if String.eqb k "pass" then Some SPass else option_map SExpr (parse_expr ts)
  | TName k :: TName x :: r =>
      if is_reserved x then None
      else if String.eqb k "raise" then
        match r with
        | [] => Some (SRaise x)
        | _ => None
        end
      else if String.eqb k "import" then option_map (SImport x) (dotted_rest r)
      else None
  | TName x :: TAssign :: r =>
      if is_reserved x then None else option_map (SAssign x) (parse_expr r)
  | _ => option_map SExpr (parse_expr ts)
  end.

Definition syntax_error : exception := mkExc SyntaxError "invalid syntax" "".
Definition indentation_error : exception :=
  mkExc IndentationError "unexpected indent" "".

(** The token lists of the lines that are not blank; a line of the fragment
    that is not blank starts in the first column. *)
Fixpoint lex_lines (lines : list string) : exception + list (list token) :=
  match lines with
  | [] => inr []
  | l :: ls =>
      match lex PNone l with
      | None => inl syntax_error
      | Some [] => lex_lines ls
      | Some ts =>
          match l with
          | String c _ =>
              if is_blank c then inl indentation_error
              else match lex_lines ls with
                   | inl e => inl e
                   | inr tss => inr (ts :: tss)
                   end
          | "" => inl syntax_error
          end
      end
  end.

Fixpoint parse_stmts (tss : list (list token)) : exception + list stmt :=
  match tss with
  | [] => inr []
  | ts :: r =>
      match parse_stmt ts, parse_stmts r with
      | Some st, inr sts => inr (st :: sts)
      | None, _ => inl syntax_error
      | _, inl e => inl e
      end
  end.

(** [compile(code, "<string>", "exec")] *)
Definition compile_exec (code : string) : exception + list stmt :=
  match lex_lines (split LF code) with
  | inl e => inl e
  | inr tss => parse_stmts tss
  end.

Fixpoint lstrip_blanks (s : string) : string :=
  match s with
  | "" => ""
  | String c r => if is_blank c then lstrip_blanks r else s
  end.

(** [compile(source, "<string>", "eval")]: [eval] drops leading blanks, and
    the source holds exactly one expression. *)
Definition compile_eval (source : string) : exception + expr :=
  match lex_lines (split LF (lstrip_blanks source)) with
  | inl e => inl e
  | inr [ts] =>
      match parse_expr ts with
      | Some e => inr e
      | None => inl syntax_error
      end
  | inr _ => inl syntax_error
  end.

(** *** Running

    A state and exception monad over the namespace, the world and the two
    output streams.  The built-ins of a run are fixed when it starts: what
    [__builtins__] is bound to at that moment. *)

Record mstate : Type := mkState {
  m_ns : dict mvalue;
  m_world : mworld;
  m_out : string;
  m_err : string;
  m_builtins : mvalue
}.

Definition M (A : Type) : Type := mstate -> completion A * mstate.

Definition ret {A : Type} (a : A) : M A := fun st => (Done a, st).

Definition bind {A B : Type} (c : M A) (k : A -> M B) : M B :=
  fun st =>
    match c st with
    | (Done a, st') => k a st'
    | (Raised e, st') => (Raised e, st')
    | (Diverged, st') => (Diverged, st')
    end.

Notation "x <- c ;; k" := (bind c (fun x => k))
  (at level 61, c at next level, right associativity).

Definition throw {A : Type} (c : exc_class) (msg : string) : M A :=
  fun st => (Raised (mkExc c msg ""), st).

(** A step that does not touch the state. *)
Definition lift {A : Type} (c : completion A) : M A := fun st => (c, st).

Definition type_name (v : mvalue) : string :=
  match v with
  | VInt _ => "int"
  | VNone => "NoneType"
  | VList _ => "list"
  | VModule _ => "module"
  | VClass _ => "type"
  | VBuiltinFn _ => "builtin_function_or_method"
  | VBuiltinsDict => "dict"
  end.

(** The exception classes that are names of the [builtins] module. *)
Definition builtin_classes : list exc_class :=
  [BaseException; Exception; SystemExit; KeyboardInterrupt; GeneratorExit;
   ArithmeticError; ZeroDivisionError; AttributeError; ImportError;
   ModuleNotFoundError; LookupError; IndexError; KeyError; NameError;
   UnboundLocalError; OSError; FileNotFoundError; PermissionError;
   RuntimeError; RecursionError; SyntaxError; IndentationError; TabError;
   TypeError; ValueError; UnicodeError; StopIteration; SystemError].

Definition builtin_lookup (x : string) : option mvalue :=
  if String.eqb x "print" then Some (VBuiltinFn "print")
  else option_map VClass (find (fun c => String.eqb (class_name c) x) builtin_classes).

Definition name_error {A : Type} (x : string) : M A :=
  throw NameError ("name '" ++ x ++ "' is not defined").

(** The name [x] in the built-ins [b] of a run.  The dictionary of the
    built-ins, or the module in its place, holds the names of
    [builtin_lookup]; of another module the fragment knows no name; any other
    value is subscripted with the name, which it does not support. *)
Definition builtin_name (b : mvalue) (x : string) : M mvalue :=
  let known := match builtin_lookup x with
               | Some v => ret v
               | None => name_error x
               end in
  match b with
  | VBuiltinsDict => known
  | VModule m => if String.eqb m "builtins" then known else name_error x
  | VList _ => throw TypeError "list indices must be integers or slices, not str"
  | VClass c => throw TypeError ("type '" ++ class_name c ++ "' is not subscriptable")
  | _ => throw TypeError ("'" ++ type_name b ++ "' object is not subscriptable")
  end.

(** A name is looked up in the namespace, then in the built-ins of the run. *)
Definition lookup (x : string) : M mvalue :=
  fun st =>
    match dict_get x (m_ns st) with
    | Some v => (Done v, st)
    | None => builtin_name (m_builtins st) x st
    end.

Definition assign (x : string) (v : mvalue) : M unit :=
  fun st =>
    (Done tt,
     mkState (dict_set x v (m_ns st)) (m_world st) (m_out st) (m_err st) (m_builtins st)).

Definition set_heap (h : list (list mvalue)) (w : mworld) : mworld :=
  mkWorld h (importable w) (package_index w) (uv_on_path w) (builtins_repr w).

(** The list object at an address. *)
Definition load (l : nat) : M (list mvalue) :=
  fun st => (Done (nth l (heap (m_world st)) []), st).

Fixpoint heap_store (l : nat) (xs : list mvalue) (h : list (list mvalue))
    : list (list mvalue) :=
  match h, l with
  | [], _ => []
  | _ :: r, O => xs :: r
  | ys :: r, S l' => ys :: heap_store l' xs r
  end.

Definition store (l : nat) (xs : list mvalue) : M unit :=
  fun st =>
    (Done tt, mkState (m_ns st) (set_heap (heap_store l xs (heap (m_world st))) (m_world st))
                      (m_out st) (m_err st) (m_builtins st)).

(** A new list object. *)
Definition alloc (xs : list mvalue) : M mvalue :=
  fun st =>
    let h := heap (m_world st) in
    (Done (VList (length h)),
     mkState (m_ns st) (set_heap (h ++ [xs])%list (m_world st)) (m_out st) (m_err st)
             (m_builtins st)).

Definition no_attribute {A : Type} (v : mvalue) (attr : string) : M A :=
  throw AttributeError
    (match v with
     | VModule m => "module '" ++ m ++ "' has no attribute '" ++ attr ++ "'"
     | VClass c => "type object '" ++ class_name c ++ "' has no attribute '" ++ attr ++ "'"
     | _ => "'" ++ type_name v ++ "' object has no attribute '" ++ attr ++ "'"
     end).

(** The modules that are compiled into the interpreter; they are no
    packages. *)
Definition is_builtin_module (m : string) : bool :=
  String.eqb m "sys" || String.eqb m "builtins".

(** The number of decimal digits of an integer, without its sign. *)
Definition int_digits (z : Z) : nat := String.length (str_of_Z (Z.abs z)).

Definition digits_exceeded : exception :=
  mkExc ValueError
        ("Exceeds the limit (4300) for integer string conversion; "
         ++ "use sys.set_int_max_str_digits() to increase the limit") "".

(** The results of a list of steps, up to the first that is not a value. *)
Fixpoint all_done {A : Type} (cs : list (completion A)) : completion (list A) :=
  match cs with
  | [] => Done []
  | Done a :: r =>
      match all_done r with
      | Done l => Done (a :: l)
      | Raised e => Raised e
      | Diverged => Diverged
      end
  | Raised e :: _ => Raised e
  | Diverged :: _ => Diverged
  end.

(** [repr(v)]: an integer of more than [max_str_digits] digits is not
    converted, a list is printed item by item, and a list that contains
    itself is cut at the second visit. *)
Fixpoint repr_value (fuel : nat) (w : mworld) (seen : list nat) (v : mvalue)
    : completion string :=
  match v with
  | VInt z =>
      if (max_str_digits <? int_digits z)%nat then Raised digits_exceeded
      else Done (str_of_Z z)
  | VNone => Done "None"
  | VList l =>
      if existsb (Nat.eqb l) seen then Done "[...]"
      else match fuel with
           | O => Done "[...]"
           | S f =>
               match all_done (map (repr_value f w (l :: seen)) (nth l (heap w) [])) with
               | Done texts => Done ("[" ++ join ", " texts ++ "]")
               | Raised e => Raised e
               | Diverged => Diverged
               end
           end
  | VModule m =>
      if is_builtin_module m then Done ("<module '" ++ m ++ "' (built-in)>")
      else match dict_get m (importable w) with
           | Some file => Done ("<module '" ++ m ++ "' from '" ++ file ++ "'>")
           | None => Done ("<module '" ++ m ++ "'>")
           end
  | VClass c => Done ("<class '" ++ class_name c ++ "'>")
  | VBuiltinFn f => Done ("<built-in function " ++ f ++ ">")
  | VBuiltinsDict => Done (builtins_repr w)
  end.

(** [repr(v)] in the world [w], which it leaves as it is. *)
Definition repr (v : mvalue) (w : mworld) : completion string * mworld :=
  (repr_value (S (length (heap w))) w [] v, w).

(** [print(v)] on the standard output, or on the standard error. *)
Definition write (to_stderr : bool) (text : string) : M unit :=
  fun st =>
    (Done tt,
     if to_stderr
     then mkState (m_ns st) (m_world st) (m_out st) (m_err st ++ text) (m_builtins st)
     else mkState (m_ns st) (m_world st) (m_out st ++ text) (m_err st) (m_builtins st)).

Definition current_world : M mworld := fun st => (Done (m_world st), st).

Fixpoint eval_expr (e : expr) : M mvalue :=
  match e with
  | EInt n => ret (VInt (Z.of_N n))
  | ENone => ret VNone
  | EName x => lookup x
  | EEmptyList => alloc []
  | ENeg a =>
      v <- eval_expr a ;;
      match v with
      | VInt z => ret (VInt (- z))
      | _ => throw TypeError ("bad operand type for unary -: '" ++ type_name v ++ "'")
      end
  | EAdd a b =>
      va <- eval_expr a ;;
      vb <- eval_expr b ;;
      match va, vb with
      | VInt x, VInt y => ret (VInt (x + y))
      | VList la, VList lb =>
          xs <- load la ;; ys <- load lb ;; alloc (xs ++ ys)%list
      | VList _, _ =>
          throw TypeError
            ("can only concatenate list (not " ++ String "034" "" ++ type_name vb
             ++ String "034" "" ++ ") to list")
      | _, _ =>
          throw TypeError
            ("unsupported operand type(s) for +: '" ++ type_name va ++ "' and '"
             ++ type_name vb ++ "'")
      end
  | EAppend x arg =>
      vx <- lookup x ;;
      match vx with
      | VList l =>
          v <- eval_expr arg ;;
          xs <- load l ;;
          _ <- store l (xs ++ [v])%list ;;
          ret VNone
      | _ => no_attribute vx "append"
      end
  | EPop x =>
      vx <- lookup x ;;
      match vx with
      | VList l =>
          xs <- load l ;;
          match rev xs with
          | [] => throw IndexError "pop from empty list"
          | v :: front => _ <- store l (rev front) ;; ret v
          end
      | VBuiltinsDict => throw TypeError "pop expected at least 1 argument, got 0"
      | _ => no_attribute vx "pop"
      end
  | EPrint arg to_stderr =>
      f <- lookup "print" ;;
      v <- eval_expr arg ;;
      _ <- (if to_stderr
            then md <- lookup "sys" ;;
                 match md with
                 | VModule m =>
                     if String.eqb m "sys" then ret tt else no_attribute md "stderr"
                 | _ => no_attribute md "stderr"
                 end
            else ret tt) ;;
      match f with
      | VBuiltinFn _ =>
          (* [str(v)], which is [repr(v)] on the values of the fragment *)
          w <- current_world ;;
          text <- lift (fst (repr v w)) ;;
          _ <- write to_stderr (text ++ nl) ;;
          ret VNone
      | _ => throw TypeError ("'" ++ type_name f ++ "' object is not callable")
      end
  end.

(** The import statement calls [__import__], which it takes from the
    built-ins of the run; they are read as a dictionary (the message of the
    [SystemError] stands without the source position CPython puts before
    it). *)
Definition import_function : M unit :=
  fun st =>
    match m_builtins st with
    | VBuiltinsDict => (Done tt, st)
    | VModule m =>
        if String.eqb m "builtins" then (Done tt, st)
        else (Raised (mkExc ImportError "__import__ not found" ""), st)
    | _ => (Raised (mkExc SystemError "bad argument to internal function" ""), st)
    end.

(** Importing [parent.x1], then [parent.x1.x2], and so on. *)
Fixpoint import_submodules (w : mworld) (parent : string) (path : list string) : M unit :=
  match path with
  | [] => ret tt
  | x :: rest =>
      let m := parent ++ "." ++ x in
      if is_builtin_module parent then
        throw ModuleNotFoundError
              ("No module named '" ++ m ++ "'; '" ++ parent ++ "' is not a package")
      else match dict_get m (importable w) with
           | Some _ => import_submodules w m rest
           | None => throw ModuleNotFoundError ("No module named '" ++ m ++ "'")
           end
  end.

Definition exec_stmt (st : stmt) : M unit :=
  match st with
  | SPass => ret tt
  | SRaise x =>
      v <- lookup x ;;
      match v with
      | VClass c => throw c ""
      | _ => throw TypeError "exceptions must derive from BaseException"
      end
  | SImport top rest =>
      (* [import a.b.c] imports [a], [a.b] and [a.b.c], and binds [a] *)
      _ <- import_function ;;
      w <- current_world ;;
      if is_builtin_module top
      then _ <- import_submodules w top rest ;; assign top (VModule top)
      else match dict_get top (importable w) with
           | Some _ => _ <- import_submodules w top rest ;; assign top (VModule top)
           | None => throw ModuleNotFoundError ("No module named '" ++ top ++ "'")
           end
  | SAssign x e => v <- eval_expr e ;; assign x v
  | SExpr e => _ <- eval_expr e ;; ret tt
  end.

Fixpoint exec_stmts (sts : list stmt) : M unit :=
  match sts with
  | [] => ret tt
  | st :: r => _ <- exec_stmt st ;; exec_stmts r
  end.

(** What [exec] and [eval] do to their namespace before anything else: a
    namespace without the key [__builtins__] gets it, bound to the dictionary
    of the built-ins. *)
Definition ensure_builtins (ns : dict mvalue) : dict mvalue :=
  match dict_get "__builtins__" ns with
  | Some _ => ns
  | None => dict_set "__builtins__" VBuiltinsDict ns
  end.

(** The built-ins of a run on the namespace [ns]. *)
Definition run_builtins (ns : dict mvalue) : mvalue :=
  match dict_get "__builtins__" ns with
  | Some b => b
  | None => VBuiltinsDict
  end.

(** [exec(code, ns)]: nothing runs when the code does not compile. *)
Definition exec (code : string) (ns : dict mvalue) (w : mworld)
    : exec_run mvalue mworld :=
  let ns := ensure_builtins ns in
  match compile_exec code with
  | inl e => mkExecRun ns w "" "" (Raised e)
  | inr sts =>
      let (c, st) := exec_stmts sts (mkState ns w "" "" (run_builtins ns)) in
      mkExecRun (m_ns st) (m_world st) (m_out st) (m_err st) c
  end.

(** [eval(source, ns)] *)
Definition eval (source : string) (ns : dict mvalue) (w : mworld)
    : eval_run mvalue mworld :=
  let ns := ensure_builtins ns in
  match compile_eval source with
  | inl e => mkEvalRun ns w (Raised e)
  | inr e =>
      let (c, st) := eval_expr e (mkState ns w "" "" (run_builtins ns)) in
      mkEvalRun (m_ns st) (m_world st) c
  end.

(** The package manager: [uv pip install package] installs the packages of
    a distribution of the index, and fails on any other; a command that is
    not on the PATH cannot be started. *)
Definition spawn (argv : list string) (w : mworld) : spawned * mworld :=
  match argv with
  | ["uv"; "pip"; "install"; package] =>
      if uv_on_path w then
        match dict_get package (package_index w) with
        | Some installed =>
            (Exited 0 "" ("Installed 1 package" ++ nl),
             mkWorld (heap w)
                     (fold_left (fun files mf => dict_set (fst mf) (snd mf) files)
                                installed (importable w))
                     (package_index w) (uv_on_path w) (builtins_repr w))
        | None =>
            (Exited 1 "" ("error: package not found: " ++ package ++ nl), w)
        end
      else
        (SpawnFailed (mkExc FileNotFoundError
                        "[Errno 2] No such file or directory: 'uv'" ""), w)
  | _ =>
      (SpawnFailed (mkExc FileNotFoundError
                      "[Errno 2] No such file or directory" ""), w)
  end.

(** The traceback of an exception of the fragment, which has neither notes
    nor parts: the heading, the lines of the stack frames (and of the source
    line of a syntax error), which are left to [frames], and the last line. *)
Definition traceback (frames : exception -> string) (e : exception) : string :=
  "Traceback (most recent call last):" ++ nl ++ frames e ++ format_final_exc_line e.

(** The instance.  [server.py] is run as the main module, where
    [__builtins__] is the module [builtins]. *)
Definition interpreter (frames : exception -> string) : Interpreter :=
  {| value := mvalue;
     World := mworld;
     builtins := VModule "builtins";
     py_exec := exec;
     py_eval := eval;
     py_repr := repr;
     format_exc := traceback frames;
     os_spawn := spawn |}.

(** The file a package is loaded from. *)
Definition site (dir : string) : string := "site-packages/" ++ dir ++ "/__init__.py".

(** A process that has just started, [uv] installed, four distributions
    known and none installed; of the standard library the example worlds
    have [sys] and [builtins] only. *)
Definition fresh_world : mworld :=
  mkWorld [] []
          [("requests", [("requests", site "requests")]);
           ("scikit-learn", [("sklearn", site "sklearn")]);
           ("pyyaml", [("yaml", site "yaml")]);
           ("zope.interface", [("zope", site "zope");
                               ("zope.interface", site "zope/interface")])]
          true
          "{'__name__': 'builtins', ...}".

(** The same on a machine without [uv]. *)
Definition world_without_uv : mworld :=
  mkWorld [] [] [] false "{'__name__': 'builtins', ...}".

(** Tracebacks with their frame lines left out. *)
Definition bare_frames : exception -> string := fun _ => "".

(** The session of a process that has just started. *)
Definition fresh_session : session (PY := interpreter bare_frames) :=
  initial_session (PY := interpreter bare_frames) fresh_world.


(** *** Calls that bind simple variables *)

(** A NAME: an identifier that is not reserved. *)
Definition is_identifier (x : string) : bool :=
  match x with
  | "" => false
  | String c r => is_word_start c && string_forall is_word_char r
  end && negb (is_reserved x).

(** The code [x = z] for an integer [z]. *)
Definition binding (x : string) (z : Z) : string := x ++ " = " ++ str_of_Z z.

Definition bindings (calls : list (string * Z)) : list string :=
  map (fun c => binding (fst c) (snd c)) calls.

(** The code [x = z] binds: [x] is a NAME and the numeral of [z] has no more
    digits than a literal may have. *)
Definition binds (c : string * Z) : bool :=
  is_identifier (fst c) && (int_digits (snd c) <=? max_str_digits)%nat.

(** The value of the last binding of [x] in a sequence of bindings. *)
Fixpoint latest (x : string) (calls : list (string * Z)) : option Z :=
  match calls with
  | [] => None
  | (y, z) :: r =>
      match latest x r with
      | Some z' => Some z'
      | None => if String.eqb y x then Some z else None
      end
  end.

(** [n] zeros; after a [5] they make the numeral of 5 * 10^[n]. *)
Fixpoint zeros (n : nat) : string :=
  match n with
  | O => ""
  | S n' => String "0" (zeros n')
  end.

(** The digits of [zeros n], and the number that [5] followed by [n] zeros
    stands for. *)
Fixpoint zeros_uint (n : nat) : Decimal.uint :=
  match n with
  | O => Decimal.Nil
  | S n' => Decimal.D0 (zeros_uint n')
  end.

Definition five_and_zeros (n : nat) : N := (5 * 10 ^ N.of_nat n)%N.

(** The code that binds [y] to the literal made of [5] and [n] zeros. *)
Definition long_literal (n : nat) : string := "y = 5" ++ zeros n.

(** Code that makes an integer of 4301 digits out of a literal of 4300, in
    two calls. *)
Definition long_integer_calls : list string := [long_literal 4299; "y = y + y"].

(** The tokens and the expression of the numeral of [z]. *)
Definition numeral_tokens (z : Z) : list token :=
  match z with
  | Z0 => [TInt 0]
  | Zpos p => [TInt (Npos p)]
  | Zneg p => [TMinus; TInt (Npos p)]
  end.

Definition numeral_expr (z : Z) : expr :=
  match z with
  | Z0 => EInt 0
  | Zpos p => EInt (Npos p)
  | Zneg p => ENeg (EInt (Npos p))
  end.

End MiniPy.

(** ** The initialization hook

    [handle_initialized] (lines 104-121) asks the client for its roots and
    changes the working directory of the process to the first one.  The
    answer of the client and [os.chdir] are given from outside; the hook is
    observed through how it ends, the working directory it leaves, the calls
    it makes on [ctx] and the directories it tries to enter.  The calls on
    [ctx] themselves do not raise. *)

(** [s[n:]] *)
Fixpoint slice_from (n : nat) (s : string) : string :=
  match n, s with
  | O, _ => s
  | S n', String _ r => slice_from n' r
  | S _, "" => ""
  end.

Inductive ctx_call : Type :=
| CtxInfo (message : string)
| CtxError (message : string).

(** [first_root[7:] if first_root.startswith("file://") else first_root] *)
Definition root_path (first_root : string) : string :=
  if startswith "file://" first_root then slice_from 7 first_root else first_root.

Section InitializationHook.
Variable Cwd : Type.
Variable os_chdir : string -> Cwd -> completion unit * Cwd.

Record hook_run : Type := mkHook {
  hook_end : completion unit;
  hook_cwd : Cwd;
  hook_calls : list ctx_call;
  hook_chdirs : list string
}.

(** The handler [except Exception as e:] of the hook (lines 120-121). *)
Definition except_initialization (e : exception) (d : Cwd) (calls : list ctx_call)
    (dirs : list string) : hook_run :=
  if isinstance e [Exception]
  then mkHook (Done tt) d
              (calls ++ [CtxError ("Error during initialization: " ++ exc_str e)]) dirs
  else mkHook (Raised e) d calls dirs.

(** [roots] is what [await ctx.session.list_roots()] comes to: a result with
    its list of roots, or [None]. *)
Definition handle_initialized (roots : completion (option (list string))) (d : Cwd)
    : hook_run :=
  let calls := [CtxInfo "Setting up root monitoring..."] in
  match roots with
  | Done (Some (first_root :: _)) =>
      let path := root_path first_root in
      match os_chdir path d with
      | (Done _, d') =>
          mkHook (Done tt) d'
                 (calls ++ [CtxInfo ("Changed working directory to: " ++ path)]) [path]
      | (Raised e, d') =>
          if isinstance e [OSError]
          then mkHook (Done tt) d'
                      (calls ++ [CtxError ("Failed to change directory to " ++ path
                                           ++ ": " ++ exc_str e)]) [path]
          else except_initialization e d' calls [path]
      | (Diverged, d') => mkHook Diverged d' calls [path]
      end
  | Done _ => mkHook (Done tt) d calls []
  | Raised e => except_initialization e d calls []
  | Diverged => mkHook Diverged d calls []
  end.

End InitializationHook.
Arguments mkHook {Cwd}.
Arguments hook_end {Cwd}.
Arguments hook_cwd {Cwd}.
Arguments hook_calls {Cwd}.
Arguments hook_chdirs {Cwd}.
Arguments except_initialization {Cwd}.
Arguments handle_initialized {Cwd}.

(** A file system with two directories: the working directory is a path, and
    entering a directory that does not exist fails and changes nothing. *)
Definition toy_chdir (path : string) (cwd : string) : completion unit * string :=
  if existsb (String.eqb path) ["/home/user/project"; "/tmp"]
  then (Done tt, path)
  else (Raised (mkExc FileNotFoundError
                  ("[Errno 2] No such file or directory: '" ++ path ++ "'") ""), cwd).

(** White space of the fragment: a blank or a line feed. *)
Definition is_blank_or_LF (c : ascii) : bool := MiniPy.is_blank c || Ascii.eqb c LF.

(** * Properties *)

(** ** Strings *)

Lemma append_empty_r (s : string) : s ++ "" = s.
Proof. induction s as [|c s IH]; simpl; [reflexivity | now rewrite IH]. Qed.

Lemma append_assoc (a b c : string) : (a ++ b) ++ c = a ++ (b ++ c).
Proof. induction a as [|x a IH]; simpl; [reflexivity | now rewrite IH]. Qed.

Lemma string_forall_app f (a b : string) :
  string_forall f (a ++ b) = string_forall f a && string_forall f b.
Proof.
  induction a as [|c a IH]; simpl; [reflexivity|].
  rewrite IH. now rewrite andb_assoc.
Qed.

Lemma string_forall_impl (f g : ascii -> bool) (s : string) :
  (forall c, f c = true -> g c = true) ->
  string_forall f s = true -> string_forall g s = true.
Proof.
  intros Hfg. induction s as [|c s IH]; simpl; [reflexivity|].
  intros H. apply andb_true_iff in H as [Hc Hs].
  rewrite (Hfg _ Hc). now apply IH.
Qed.

Lemma split_not_nil (sep : ascii) (s : string) : split sep s <> [].
Proof.
  induction s as [|c s IH]; simpl; [discriminate|].
  destruct (Ascii.eqb c sep); [discriminate|].
  destruct (split sep s); discriminate.
Qed.

(** A string without the separator is its own single field. *)
Lemma split_without (sep : ascii) (s : string) :
  string_forall (fun c => negb (Ascii.eqb c sep)) s = true -> split sep s = [s].
Proof.
  induction s as [|c s IH]; simpl; [reflexivity|].
  intros H. apply andb_true_iff in H as [Hc Hs].
  apply negb_true_iff in Hc. rewrite Hc, (IH Hs). reflexivity.
Qed.

(** The fields of [split] never hold the separator. *)
Lemma split_fields (sep : ascii) (s : string) :
  Forall (fun w => string_forall (fun c => negb (Ascii.eqb c sep)) w = true)
         (split sep s).
Proof.
  induction s as [|c s IH]; simpl.
  - repeat constructor.
  - destruct (Ascii.eqb c sep) eqn:E.
    + constructor; [reflexivity | exact IH].
    + destruct (split sep s) as [|w ws]; inversion IH; subst.
      * repeat constructor. simpl. now rewrite E.
      * constructor; [simpl; rewrite E; simpl; assumption | assumption].
Qed.

Lemma lstrip_id (c : ascii) (r : string) :
  py_isspace c = false -> lstrip (String c r) = String c r.
Proof. intros H. simpl. now rewrite H. Qed.

Lemma rstrip_id (s : string) : ends_solid s = true -> rstrip s = s.
Proof.
  induction s as [|c s IH]; [discriminate|].
  destruct s as [|d s'].
  - simpl. intros H. apply negb_true_iff in H. now rewrite H.
  - intros H. change (ends_solid (String d s') = true) in H.
    specialize (IH H).
    change (rstrip (String c (String d s')))
      with (match rstrip (String d s') with
            | "" => if py_isspace c then "" else String c ""
            | r' => String c r'
            end).
    rewrite IH. reflexivity.
Qed.

Lemma ends_solid_app (a b : string) :
  ends_solid b = true -> ends_solid (a ++ b) = true.
Proof.
  intros Hb. induction a as [|c a IH]; simpl; [assumption|].
  destruct (a ++ b) eqn:E; [|assumption].
  destruct a; simpl in E; [|discriminate]. subst b. discriminate.
Qed.

Lemma ends_solid_forall (f : ascii -> bool) (s : string) :
  (forall c, f c = true -> py_isspace c = false) ->
  s <> "" -> string_forall f s = true -> ends_solid s = true.
Proof.
  intros Hf. induction s as [|c s IH]; [congruence|].
  intros _ H. simpl in H. apply andb_true_iff in H as [Hc Hs].
  destruct s as [|d s'].
  - simpl. now rewrite (Hf _ Hc).
  - change (ends_solid (String d s') = true). apply IH; [discriminate | assumption].
Qed.

(** ** Character classes *)

Ltac by_cases_on_char c :=
  destruct c as [[] [] [] [] [] [] [] []]; vm_compute; intros; congruence.

Lemma digit_not_word_start c : is_digit c = true -> MiniPy.is_word_start c = false.
Proof. by_cases_on_char c. Qed.

Lemma digit_is_word_char c : is_digit c = true -> MiniPy.is_word_char c = true.
Proof. by_cases_on_char c. Qed.

Lemma word_char_not_space c : MiniPy.is_word_char c = true -> py_isspace c = false.
Proof. by_cases_on_char c. Qed.

Lemma word_char_not_blank c : MiniPy.is_word_char c = true -> MiniPy.is_blank c = false.
Proof. by_cases_on_char c. Qed.

Lemma word_char_not_LF c : MiniPy.is_word_char c = true -> negb (Ascii.eqb c LF) = true.
Proof. by_cases_on_char c. Qed.

Lemma word_start_is_word_char c :
  MiniPy.is_word_start c = true -> MiniPy.is_word_char c = true.
Proof. by_cases_on_char c. Qed.

Lemma pkg_char_not_bracket c : is_pkg_char c = true -> negb (Ascii.eqb c "[") = true.
Proof. by_cases_on_char c. Qed.

Lemma alnum_is_pkg_char c : is_alnum c = true -> is_pkg_char c = true.
Proof. by_cases_on_char c. Qed.

(** ** Decimal numerals *)

Lemma digits_of_uint (d : Decimal.uint) :
  string_forall is_digit (NilEmpty.string_of_uint d) = true.
Proof. induction d; simpl; try reflexivity; assumption. Qed.

Lemma nzhead_no_D0 (d d' : Decimal.uint) : Decimal.nzhead d <> Decimal.D0 d'.
Proof. induction d; simpl; try discriminate. assumption. Qed.

(** The numeral of a positive number is not empty and has no leading zero. *)
Lemma pos_numeral (p : positive) :
  exists c r, NilZero.string_of_uint (Pos.to_uint p) = String c r
              /\ c <> "0"%char.
Proof.
  assert (Hn : Decimal.unorm (Pos.to_uint p) = Pos.to_uint p).
  { rewrite <- (DecimalN.Unsigned.to_of (Pos.to_uint p)).
    change (N.of_uint (Pos.to_uint p)) with (Pos.of_uint (Pos.to_uint p)).
    rewrite DecimalPos.Unsigned.of_to. reflexivity. }
  pose proof (DecimalPos.Unsigned.to_uint_nonzero p) as Hz.
  pose proof (DecimalPos.Unsigned.to_uint_nonnil p) as Hnil.
  destruct (Pos.to_uint p) as [|d|d|d|d|d|d|d|d|d|d] eqn:E;
    try congruence; try (simpl; eexists _, _; split; [reflexivity | discriminate]).
  exfalso. unfold Decimal.unorm in Hn. simpl in Hn.
  destruct (Decimal.nzhead d) as [|u|u|u|u|u|u|u|u|u|u] eqn:En; try discriminate Hn.
  - apply Hz. inversion Hn. reflexivity.
  - exact (nzhead_no_D0 d u En).
Qed.

Lemma int_literal_pos (p : positive) :
  (MiniPy.int_digits (Zpos p) <= MiniPy.max_str_digits)%nat ->
  MiniPy.int_literal (NilZero.string_of_uint (Pos.to_uint p)) = Some (Npos p).
Proof.
  intros Hlen. unfold MiniPy.int_literal.
  replace (MiniPy.max_str_digits
           <? String.length (NilZero.string_of_uint (Pos.to_uint p)))%nat with false
    by (symmetry; apply Nat.ltb_ge; exact Hlen).
  rewrite NilZero.usu by apply DecimalPos.Unsigned.to_uint_nonnil.
  change (N.of_uint (Pos.to_uint p)) with (Pos.of_uint (Pos.to_uint p)).
  rewrite DecimalPos.Unsigned.of_to.
  destruct (pos_numeral p) as (c & r & -> & Hc).
  unfold String.prefix.
  destruct (ascii_dec "0" c) as [E|E]; [now subst c | reflexivity].
Qed.

(** ** Lexing *)

Import MiniPy.

Lemma lex_word_run (r w rest : string) :
  string_forall is_word_char r = true ->
  lex (PWord w) (r ++ rest) = lex (PWord (w ++ r)) rest.
Proof.
  revert w. induction r as [|c r IH]; intros w H; simpl.
  - now rewrite append_empty_r.
  - simpl in H. apply andb_true_iff in H as [Hc Hr].
    rewrite Hc. simpl. rewrite (IH _ Hr), append_assoc. reflexivity.
Qed.

Lemma lex_num_run (r ds rest : string) :
  string_forall is_digit r = true ->
  lex (PNum ds) (r ++ rest) = lex (PNum (ds ++ r)) rest.
Proof.
  revert ds. induction r as [|c r IH]; intros ds H; simpl.
  - now rewrite append_empty_r.
  - simpl in H. apply andb_true_iff in H as [Hc Hr].
    rewrite Hc. simpl. rewrite (IH _ Hr), append_assoc. reflexivity.
Qed.

Lemma option_map_app_nil {A} (o : option (list A)) : option_map (app []) o = o.
Proof. now destruct o. Qed.

(** A word at the start of a line is lexed as one name. *)
Lemma lex_word (c : ascii) (r rest : string) :
  is_word_start c = true -> string_forall is_word_char r = true ->
  lex PNone (String c r ++ rest) = lex (PWord (String c r)) rest.
Proof.
  intros Hc Hr. simpl. rewrite Hc, option_map_app_nil.
  apply (lex_word_run r (String c "") rest Hr).
Qed.

Lemma lex_numeral (p : positive) :
  (int_digits (Zpos p) <= max_str_digits)%nat ->
  lex PNone (NilZero.string_of_uint (Pos.to_uint p)) = Some [TInt (Npos p)].
Proof.
  intros Hlen. pose proof (int_literal_pos p Hlen) as Hlit.
  pose proof (digits_of_uint (Pos.to_uint p)) as Hd.
  destruct (pos_numeral p) as (c & r & E & _).
  assert (E' : NilEmpty.string_of_uint (Pos.to_uint p) = String c r).
  { rewrite <- E. unfold NilZero.string_of_uint.
    destruct (Pos.to_uint p) eqn:Ep; try reflexivity.
    now destruct (DecimalPos.Unsigned.to_uint_nonnil p). }
  rewrite E in *. rewrite E' in Hd. simpl in Hd.
  apply andb_true_iff in Hd as [Hc Hr].
  simpl. rewrite (digit_not_word_start _ Hc), Hc, option_map_app_nil.
  rewrite <- (append_empty_r r), (lex_num_run r (String c "") "" Hr).
  simpl. rewrite Hlit. reflexivity.
Qed.

Lemma lex_str_of_Z (z : Z) :
  (int_digits z <= max_str_digits)%nat ->
  lex PNone (str_of_Z z) = Some (numeral_tokens z).
Proof.
  destruct z as [|p|p]; intros Hlen; unfold str_of_Z; simpl.
  - reflexivity.
  - now apply lex_numeral.
  - fold (NilZero.string_of_uint (Pos.to_uint p)). rewrite lex_numeral; [reflexivity|].
    exact Hlen.
Qed.

Lemma lex_name (x : string) :
  is_identifier x = true -> lex PNone x = Some [TName x].
Proof.
  unfold is_identifier. destruct x as [|c r]; [discriminate|].
  intros H. apply andb_true_iff in H as [H _].
  apply andb_true_iff in H as [Hc Hr].
  rewrite <- (append_empty_r (String c r)) at 1.
  rewrite (lex_word c r "" Hc Hr). reflexivity.
Qed.

Lemma lex_binding (x : string) (z : Z) :
  is_identifier x = true ->
  (int_digits z <= max_str_digits)%nat ->
  lex PNone (binding x z) = Some (TName x :: TAssign :: numeral_tokens z).
Proof.
  unfold is_identifier, binding. destruct x as [|c r]; [discriminate|].
  intros H Hlen. apply andb_true_iff in H as [H _].
  apply andb_true_iff in H as [Hc Hr].
  rewrite (lex_word c r _ Hc Hr).
  simpl. rewrite (lex_str_of_Z z Hlen). reflexivity.
Qed.

Lemma digit_not_LF c : is_digit c = true -> negb (Ascii.eqb c LF) = true.
Proof. by_cases_on_char c. Qed.

Lemma digit_not_space c : is_digit c = true -> py_isspace c = false.
Proof. by_cases_on_char c. Qed.

Lemma word_start_not_blank c : is_word_start c = true -> is_blank c = false.
Proof. by_cases_on_char c. Qed.

Lemma word_start_not_space c : is_word_start c = true -> py_isspace c = false.
Proof. by_cases_on_char c. Qed.

Lemma numeral_nonnil (p : positive) :
  NilZero.string_of_uint (Pos.to_uint p) = NilEmpty.string_of_uint (Pos.to_uint p).
Proof.
  unfold NilZero.string_of_uint.
  destruct (Pos.to_uint p) eqn:Ep; try reflexivity.
  now destruct (DecimalPos.Unsigned.to_uint_nonnil p).
Qed.

Lemma str_of_Z_no_LF (z : Z) :
  string_forall (fun c => negb (Ascii.eqb c LF)) (str_of_Z z) = true.
Proof.
  destruct z as [|p|p]; unfold str_of_Z; simpl; [reflexivity| |];
    fold (NilZero.string_of_uint (Pos.to_uint p)); rewrite numeral_nonnil;
    apply (string_forall_impl is_digit); auto using digit_not_LF, digits_of_uint.
Qed.

Lemma str_of_Z_ends_solid (z : Z) : ends_solid (str_of_Z z) = true.
Proof.
  assert (H : forall p, ends_solid (NilZero.string_of_uint (Pos.to_uint p)) = true).
  { intros p. apply (ends_solid_forall is_digit).
    - apply digit_not_space.
    - destruct (pos_numeral p) as (c & r & -> & _). discriminate.
    - rewrite numeral_nonnil. apply digits_of_uint. }
  destruct z as [|p|p]; unfold str_of_Z; simpl; [reflexivity | apply H |].
  apply (ends_solid_app "-"), H.
Qed.

Section Lines.
Variables (x : string) (z : Z).
Hypothesis Hx : is_identifier x = true.
Hypothesis Hz : (int_digits z <= max_str_digits)%nat.

Lemma identifier_not_reserved : is_reserved x = false.
Proof.
  unfold is_identifier in Hx. apply andb_true_iff in Hx as [_ H].
  now apply negb_true_iff in H.
Qed.

Lemma identifier_inv :
  exists c r, x = String c r /\ is_word_start c = true
              /\ string_forall is_word_char r = true /\ is_keyword x = false.
Proof.
  pose proof identifier_not_reserved as Hr'.
  unfold is_reserved in Hr'. apply orb_false_iff in Hr' as [Hk _].
  unfold is_identifier in Hx. destruct x as [|c r]; [discriminate|].
  apply andb_true_iff in Hx as [H1 H2]. apply andb_true_iff in H1 as [Hc Hr].
  eauto 6.
Qed.

Lemma identifier_no_LF : string_forall (fun c => negb (Ascii.eqb c LF)) x = true.
Proof.
  destruct identifier_inv as (c & r & -> & Hc & Hr & _). simpl.
  rewrite (word_char_not_LF c (word_start_is_word_char c Hc)). simpl.
  apply (string_forall_impl is_word_char); auto using word_char_not_LF.
Qed.

Lemma identifier_ends_solid : ends_solid x = true.
Proof.
  destruct identifier_inv as (c & r & E & Hc & Hr & _).
  apply (ends_solid_forall is_word_char).
  - apply word_char_not_space.
  - rewrite E. discriminate.
  - rewrite E. simpl. now rewrite (word_start_is_word_char c Hc).
Qed.

(** A binding, and a name, is a single line without white space around it. *)
Lemma last_line_binding : item_last (split LF (strip (binding x z))) = binding x z.
Proof.
  assert (Hs : strip (binding x z) = binding x z).
  { unfold strip. destruct identifier_inv as (c & r & E & Hc & _).
    replace (lstrip (binding x z)) with (binding x z).
    - apply rstrip_id. unfold binding. apply ends_solid_app, ends_solid_app.
      apply str_of_Z_ends_solid.
    - unfold binding. rewrite E. simpl. now rewrite (word_start_not_space c Hc). }
  rewrite Hs, split_without; [reflexivity|].
  unfold binding. rewrite !string_forall_app, identifier_no_LF, str_of_Z_no_LF.
  reflexivity.
Qed.

Lemma last_line_name : item_last (split LF (strip x)) = x.
Proof.
  assert (Hs : strip x = x).
  { unfold strip. destruct identifier_inv as (c & r & E & Hc & _).
    replace (lstrip x) with x.
    - apply rstrip_id, identifier_ends_solid.
    - rewrite E. simpl. now rewrite (word_start_not_space c Hc). }
  rewrite Hs, split_without; [reflexivity | apply identifier_no_LF].
Qed.

Lemma not_keyword (k : string) :
  In k keywords -> String.eqb x k = false.
Proof.
  destruct identifier_inv as (_ & _ & _ & _ & _ & Hk).
  intros Hin. unfold is_keyword in Hk.
  destruct (String.eqb x k) eqn:E; [|reflexivity].
  rewrite <- Hk. symmetry. apply existsb_exists. eauto.
Qed.

Lemma lex_lines_binding :
  lex_lines (split LF (binding x z)) = inr [TName x :: TAssign :: numeral_tokens z].
Proof.
  rewrite split_without.
  - simpl. rewrite (lex_binding x z Hx Hz).
    destruct identifier_inv as (c & r & E & Hc & _).
    unfold binding. rewrite E. simpl. now rewrite (word_start_not_blank c Hc).
  - unfold binding. rewrite !string_forall_app, identifier_no_LF, str_of_Z_no_LF.
    reflexivity.
Qed.

Lemma lex_lines_name : lex_lines (split LF x) = inr [[TName x]].
Proof.
  rewrite split_without by apply identifier_no_LF.
  simpl. rewrite (lex_name x Hx).
  destruct identifier_inv as (c & r & E & Hc & _).
  rewrite E. now rewrite (word_start_not_blank c Hc).
Qed.

Lemma lstrip_blanks_identifier (rest : string) : lstrip_blanks (x ++ rest) = x ++ rest.
Proof.
  destruct identifier_inv as (c & r & E & Hc & _).
  rewrite E. simpl. now rewrite (word_start_not_blank c Hc).
Qed.

Lemma compile_exec_binding :
  compile_exec (binding x z) = inr [SAssign x (numeral_expr z)].
Proof.
  unfold compile_exec. rewrite lex_lines_binding.
  pose proof identifier_not_reserved as Hk.
  destruct z; simpl; rewrite Hk; reflexivity.
Qed.

Lemma compile_eval_binding : compile_eval (binding x z) = inl syntax_error.
Proof.
  unfold compile_eval. unfold binding at 1. rewrite lstrip_blanks_identifier.
  fold (binding x z). rewrite lex_lines_binding.
  destruct z; reflexivity.
Qed.

Lemma parse_expr_name : parse_expr [TName x] = Some (EName x).
Proof.
  pose proof identifier_not_reserved as Hk.
  unfold parse_expr, parse_arith, summands, parse_atom, parse_prim.
  rewrite Hk, (not_keyword "None"); [reflexivity|].
  unfold keywords. simpl. tauto.
Qed.

Lemma compile_exec_name : compile_exec x = inr [SExpr (EName x)].
Proof.
  unfold compile_exec. rewrite lex_lines_name.
  unfold parse_stmts, parse_stmt. rewrite (not_keyword "pass").
  - rewrite parse_expr_name. reflexivity.
  - unfold keywords. simpl. tauto.
Qed.

Lemma compile_eval_name : compile_eval x = inr (EName x).
Proof.
  unfold compile_eval. rewrite <- (append_empty_r x) at 1.
  rewrite lstrip_blanks_identifier, append_empty_r, lex_lines_name.
  now rewrite parse_expr_name.
Qed.

End Lines.

(** ** Dictionaries *)

Lemma dict_get_set {V} (k k' : string) (v : V) (d : dict V) :
  dict_get k' (dict_set k v d) = if String.eqb k k' then Some v else dict_get k' d.
Proof.
  induction d as [|[k0 v0] d IH]; simpl.
  - reflexivity.
  - destruct (String.eqb_spec k0 k) as [->|Hne]; simpl.
    + destruct (String.eqb k k'); reflexivity.
    + rewrite IH. destruct (String.eqb_spec k0 k') as [->|Hne'].
      * destruct (String.eqb_spec k k'); [congruence | reflexivity].
      * reflexivity.
Qed.

(** ** The built-ins of a run *)

Lemma ensure_builtins_get (x : string) (ns : dict mvalue) :
  dict_get x (ensure_builtins ns)
  = match dict_get x ns with
    | Some v => Some v
    | None => if String.eqb "__builtins__" x then Some VBuiltinsDict else None
    end.
Proof.
  unfold ensure_builtins. destruct (dict_get "__builtins__" ns) eqn:E.
  - destruct (dict_get x ns) eqn:Ex; [reflexivity|].
    destruct (String.eqb_spec "__builtins__" x) as [<-|]; [congruence | reflexivity].
  - rewrite dict_get_set. destruct (String.eqb_spec "__builtins__" x) as [<-|].
    + now rewrite E.
    + now destruct (dict_get x ns).
Qed.

Lemma ensure_builtins_bound (ns : dict mvalue) (b : mvalue) :
  dict_get "__builtins__" ns = Some b -> ensure_builtins ns = ns.
Proof. intros H. unfold ensure_builtins. now rewrite H. Qed.

Lemma ensure_builtins_idem (ns : dict mvalue) :
  ensure_builtins (ensure_builtins ns) = ensure_builtins ns.
Proof.
  destruct (dict_get "__builtins__" (ensure_builtins ns)) as [b|] eqn:E.
  - now apply (ensure_builtins_bound _ b).
  - rewrite ensure_builtins_get in E.
    destruct (dict_get "__builtins__" ns); discriminate E.
Qed.

Lemma ensure_builtins_set (x : string) (v : mvalue) (ns : dict mvalue) :
  ensure_builtins (dict_set x v (ensure_builtins ns)) = dict_set x v (ensure_builtins ns).
Proof.
  destruct (dict_get "__builtins__" (dict_set x v (ensure_builtins ns))) as [b|] eqn:E.
  - now apply (ensure_builtins_bound _ b).
  - rewrite dict_get_set, ensure_builtins_get in E.
    destruct (String.eqb x "__builtins__"); [discriminate E|].
    destruct (dict_get "__builtins__" ns); discriminate E.
Qed.

(** The built-ins of a run on the namespace of the server: the module. *)
Lemma run_builtins_reset :
  run_builtins (ensure_builtins [("__builtins__", VModule "builtins")]) = VModule "builtins".
Proof. reflexivity. Qed.

(** ** Printing integers *)

Lemma repr_value_int (fuel : nat) (w : mworld) (seen : list nat) (z : Z) :
  (int_digits z <= max_str_digits)%nat ->
  repr_value fuel w seen (VInt z) = Done (str_of_Z z).
Proof.
  intros H. apply Nat.ltb_ge in H. destruct fuel; cbn [repr_value]; now rewrite H.
Qed.

Lemma repr_value_long (fuel : nat) (w : mworld) (seen : list nat) (z : Z) :
  (max_str_digits < int_digits z)%nat ->
  repr_value fuel w seen (VInt z) = Raised digits_exceeded.
Proof.
  intros H. apply Nat.ltb_lt in H. destruct fuel; cbn [repr_value]; now rewrite H.
Qed.

(** ** Bindings persist *)

Section Persistence.
Variable frames : exception -> string.
Abbreviation PY := (interpreter frames).

Lemma eval_numeral (z : Z) (st : mstate) :
  eval_expr (numeral_expr z) st = (Done (VInt z), st).
Proof. destruct z; reflexivity. Qed.

Lemma exec_binding (x : string) (z : Z) ns w :
  is_identifier x = true ->
  (int_digits z <= max_str_digits)%nat ->
  exec (binding x z) ns w
  = mkExecRun (dict_set x (VInt z) (ensure_builtins ns)) w "" "" (Done tt).
Proof.
  intros Hx Hz. unfold exec. rewrite (compile_exec_binding x z Hx Hz).
  unfold exec_stmts, exec_stmt, bind. rewrite eval_numeral. reflexivity.
Qed.

Lemma eval_binding (x : string) (z : Z) ns w :
  is_identifier x = true ->
  (int_digits z <= max_str_digits)%nat ->
  eval (binding x z) ns w = mkEvalRun (ensure_builtins ns) w (Raised syntax_error).
Proof. intros Hx Hz. unfold eval. now rewrite (compile_eval_binding x z Hx Hz). Qed.

(** A call that binds [x] to [z] sets that one entry of the namespace, once
    [exec] has seen to the entry of the built-ins. *)
Lemma execute_binding (x : string) (z : Z) (s : session (PY := PY)) :
  is_identifier x = true ->
  (int_digits z <= max_str_digits)%nat ->
  execute_python (binding x z) false s
  = mkRun (PY := PY) (Returns "Code executed successfully (no output)")
          (mkSession (PY := PY)
             (dict_set x (VInt z) (ensure_builtins (global_namespace s))) (world s))
          [EvExec (binding x z); EvEval (binding x z)].
Proof.
  intros Hx Hz. unfold execute_python.
  change (py_exec (Interpreter := PY)) with exec.
  change (py_eval (Interpreter := PY)) with eval.
  rewrite (exec_binding x z _ _ Hx Hz).
  cbn [run_end run_stdout run_stderr nonempty negb andb].
  cbn [run_namespace run_world global_namespace world].
  rewrite (last_line_binding x z Hx), (eval_binding x z _ _ Hx Hz).
  cbn [eval_end eval_namespace eval_world except_fallback].
  now rewrite ensure_builtins_set.
Qed.

(** A call whose code is the name [x], bound in the namespace: the value is
    found twice, and printed. *)
Lemma execute_name (x : string) (v : mvalue) (s : session (PY := PY)) :
  is_identifier x = true ->
  dict_get (V := mvalue) x (global_namespace s) = Some v ->
  execute_python x false s
  = mkRun (PY := PY)
          match fst (repr v (world s)) with
          | Done text => Returns ("Result: " ++ text)
          | Raised e => except_fallback (PY := PY) e
          | Diverged => Hangs
          end
          (mkSession (PY := PY) (ensure_builtins (global_namespace s)) (world s))
          [EvExec x; EvEval x].
Proof.
  intros Hx Hget.
  assert (Hget' : dict_get x (ensure_builtins (global_namespace s)) = Some v).
  { rewrite ensure_builtins_get.
    change (dict_get (V := value (Interpreter := PY)) x (global_namespace s))
      with (dict_get (V := mvalue) x (global_namespace s)).
    now rewrite Hget. }
  unfold execute_python.
  change (py_exec (Interpreter := PY)) with exec.
  change (py_eval (Interpreter := PY)) with eval.
  change (py_repr (Interpreter := PY)) with repr.
  unfold exec. rewrite (compile_exec_name x Hx).
  unfold exec_stmts, exec_stmt, bind, eval_expr, lookup, ret.
  cbn [m_ns]. rewrite Hget'.
  cbn [run_end run_stdout run_stderr nonempty negb andb m_ns m_world m_out m_err].
  cbn [run_namespace run_world global_namespace world].
  rewrite (last_line_name x Hx).
  unfold eval. rewrite (compile_eval_name x Hx), ensure_builtins_idem.
  unfold eval_expr, lookup. cbn [m_ns]. rewrite Hget'.
  cbn [eval_end eval_namespace eval_world m_ns m_world].
  unfold repr. cbn [fst].
  destruct (repr_value _ (world s) [] v); reflexivity.
Qed.

(** A name that is bound stays bound to its value while other names are
    bound. *)
Lemma binding_kept (calls : list (string * Z)) :
  Forall (fun c => binds c = true) calls ->
  forall (x : string) (v : mvalue) (s : session (PY := PY)),
  latest x calls = None ->
  dict_get (V := mvalue) x (global_namespace s) = Some v ->
  dict_get (V := mvalue) x (global_namespace (execute_all (bindings calls) s)) = Some v.
Proof.
  induction 1 as [|[y z] calls Hy Hcalls IH]; intros x v s Hlatest Hget.
  - exact Hget.
  - change (execute_all (bindings ((y, z) :: calls)) s)
      with (execute_all (bindings calls)
              (after (execute_python (binding y z) false s))).
    apply andb_true_iff in Hy as [Hy Hz]. apply Nat.leb_le in Hz.
    cbn [latest] in Hlatest.
    destruct (latest x calls) eqn:El; [discriminate|].
    destruct (String.eqb y x) eqn:Eyx; [discriminate|].
    cbn [fst snd] in Hy, Hz.
    apply IH; [exact El|].
    rewrite (execute_binding y z s Hy Hz). cbn [after global_namespace].
    rewrite dict_get_set, Eyx, ensure_builtins_get.
    change (dict_get (V := value (Interpreter := PY)) x (global_namespace s))
      with (dict_get (V := mvalue) x (global_namespace s)).
    now rewrite Hget.
Qed.

Lemma namespace_after_bindings (calls : list (string * Z)) :
  Forall (fun c => binds c = true) calls ->
  forall (x : string) (z : Z) (s : session (PY := PY)),
  latest x calls = Some z ->
  dict_get (V := mvalue) x (global_namespace (execute_all (bindings calls) s))
  = Some (VInt z).
Proof.
  induction 1 as [|[y z'] calls Hy Hcalls IH]; intros x z s Hlatest.
  - discriminate.
  - change (execute_all (bindings ((y, z') :: calls)) s)
      with (execute_all (bindings calls)
              (after (execute_python (binding y z') false s))).
    cbn [latest] in Hlatest.
    destruct (latest x calls) as [z0|] eqn:El.
    + injection Hlatest as ->. now apply IH.
    + destruct (String.eqb y x) eqn:Eyx; [|discriminate].
      injection Hlatest as ->.
      apply (binding_kept calls Hcalls); [exact El|].
      apply andb_true_iff in Hy as [Hy Hz]. apply Nat.leb_le in Hz.
      cbn [fst snd] in Hy, Hz.
      rewrite (execute_binding y z s Hy Hz). cbn [after global_namespace].
      now rewrite dict_get_set, Eyx.
Qed.

(** The last binding of a name in a sequence of calls that bind. *)
Lemma latest_binds (calls : list (string * Z)) (x : string) (z : Z) :
  Forall (fun c => binds c = true) calls ->
  latest x calls = Some z ->
  binds (x, z) = true.
Proof.
  induction 1 as [|[y z'] calls Hy _ IH]; [discriminate|].
  cbn [latest]. destruct (latest x calls); [exact IH|].
  destruct (String.eqb_spec y x) as [<-|]; [|discriminate].
  now intros [= <-].
Qed.

(** After a sequence of bindings, the name [x] evaluates to its last one. *)
Lemma latest_binding_observed (calls : list (string * Z)) (x : string) (z : Z)
    (s : session (PY := PY)) :
  Forall (fun c => binds c = true) calls ->
  latest x calls = Some z ->
  result (execute_python x false (execute_all (bindings calls) s))
  = Returns ("Result: " ++ str_of_Z z).
Proof.
  intros Hcalls Hlatest.
  pose proof (latest_binds calls x z Hcalls Hlatest) as Hxz.
  apply andb_true_iff in Hxz as [Hx Hz]. cbn [fst snd] in Hx, Hz. apply Nat.leb_le in Hz.
  rewrite (execute_name x (VInt z)).
  - cbn [result]. unfold repr. cbn [fst]. now rewrite repr_value_int.
  - exact Hx.
  - now apply namespace_after_bindings.
Qed.

End Persistence.
Lemma dict_set_fresh {V} (k : string) (v : V) (d : dict V) :
  ~ In k (dict_keys d) -> dict_set k v d = (d ++ [(k, v)])%list.
Proof.
  induction d as [|[k0 v0] d IH]; simpl; intros Hk; [reflexivity|].
  destruct (String.eqb_spec k0 k) as [->|Hne]; [tauto|].
  rewrite IH; tauto.
Qed.

Lemma dict_set_keys {V} (k k' : string) (v : V) (d : dict V) :
  In k' (dict_keys (dict_set k v d)) <-> k' = k \/ In k' (dict_keys d).
Proof.
  induction d as [|[k0 v0] d IH]; simpl.
  - intuition congruence.
  - destruct (String.eqb_spec k0 k) as [->|Hne]; simpl; [intuition congruence|].
    rewrite IH. intuition congruence.
Qed.

Lemma dict_set_wf {V} (k : string) (v : V) (d : dict V) :
  dict_wf d -> dict_wf (dict_set k v d).
Proof.
  unfold dict_wf. induction d as [|[k0 v0] d IH]; simpl; intros Hwf.
  - repeat constructor. intros [].
  - inversion Hwf as [|? ? Hk0 Hd]; subst.
    destruct (String.eqb_spec k0 k) as [->|Hne]; simpl.
    + now constructor.
    + constructor; [|now apply IH].
      fold (dict_keys (dict_set k v d)). rewrite dict_set_keys.
      intros [->|Hin]; [congruence | contradiction].
Qed.


Lemma listed_visible (k : string) : listed k = visible k.
Proof.
  unfold listed, visible, startswith. f_equal. f_equal.
  destruct k as [|c r]; [reflexivity|].
  change (String.prefix "_" (String c r))
    with (if ascii_dec "_" c then String.prefix "" r else false).
  unfold starts_with_underscore.
  destruct (ascii_dec "_" c) as [<-|Hne].
  - rewrite Ascii.eqb_refl. now destruct r.
  - symmetry. apply Ascii.eqb_neq. congruence.
Qed.

(** ** The package-name pattern *)

Lemma match_tail_no_bracket (r : string) :
  match_tail r = true -> string_forall (fun c => negb (Ascii.eqb c "[")) r = true.
Proof.
  induction r as [|c r IH]; [reflexivity|].
  simpl. intros H. apply orb_true_iff in H as [H|H].
  - destruct r; [|discriminate]. apply Ascii.eqb_eq in H. now subst c.
  - apply andb_true_iff in H as [Hc Hr].
    now rewrite (pkg_char_not_bracket c Hc), (IH Hr).
Qed.

Lemma accepted_no_bracket (package : string) :
  re_match_package package = true ->
  string_forall (fun c => negb (Ascii.eqb c "[")) package = true.
Proof.
  destruct package as [|c r]; [discriminate|]. simpl.
  intros H. apply andb_true_iff in H as [Hc Hr].
  rewrite (pkg_char_not_bracket c (alnum_is_pkg_char c Hc)).
  now apply match_tail_no_bracket.
Qed.

(** What [re.match] accepts: the names of the pattern, each also with one
    line feed after it. *)
Lemma match_tail_spec (r : string) :
  match_tail r = true <->
  string_forall is_pkg_char r = true
  \/ exists q, r = q ++ nl /\ string_forall is_pkg_char q = true.
Proof.
  induction r as [|c r IH].
  - simpl. tauto.
  - change (match_tail (String c r))
      with (at_dollar (String c r) || (is_pkg_char c && match_tail r)).
    rewrite orb_true_iff, andb_true_iff, IH. split.
    + intros [H|[Hc [Hr|(q & -> & Hq)]]].
      * destruct r; [|discriminate]. simpl in H. apply Ascii.eqb_eq in H. subst c.
        right. exists "". split; reflexivity.
      * left. simpl. now rewrite Hc, Hr.
      * right. exists (String c q). simpl. now rewrite Hc, Hq.
    + intros [H|(q & E & Hq)].
      * simpl in H. apply andb_true_iff in H. tauto.
      * destruct q as [|d q]; simpl in E; inversion E; subst.
        -- left. reflexivity.
        -- simpl in Hq. apply andb_true_iff in Hq as [Hd Hq]. right. split; [assumption|].
           right. now exists q.
Qed.

Lemma re_match_package_spec (package : string) :
  re_match_package package = true <->
  filename_safe package = true
  \/ exists q, package = q ++ nl /\ filename_safe q = true.
Proof.
  destruct package as [|c r].
  - simpl. split; [discriminate|].
    intros [H|(q & E & Hq)]; [discriminate|]. destruct q; discriminate.
  - simpl. rewrite !andb_true_iff, match_tail_spec. split.
    + intros [Hc [Hr|(q & -> & Hq)]].
      * left. tauto.
      * right. exists (String c q). simpl. now rewrite Hc, Hq.
    + intros [[Hc Hr]|(q & E & Hq)]; [tauto|].
      destruct q as [|d q]; [discriminate|]. simpl in E. inversion E; subst.
      simpl in Hq. apply andb_true_iff in Hq as [Hc Hq].
      split; [assumption|]. right. now exists q.
Qed.

(** ** The tools on any interpreter *)

Section Tools.
Context `{PY : Interpreter}.


Lemma nonempty_false (s : string) : nonempty s = false <-> s = "".
Proof. destruct s; simpl; split; congruence. Qed.

Lemma nonempty_true (s : string) : nonempty s = true <-> s <> "".
Proof. destruct s; simpl; split; congruence. Qed.

(** The run of [execute_python] when the code ran to its end in silence. *)
Lemma execute_python_silent (code : string) (s : session) :
  let r := py_exec code (global_namespace s) (world s) in
  let last_line := item_last (split LF (strip code)) in
  let v := py_eval last_line (run_namespace r) (run_world r) in
  run_end r = Done tt -> run_stdout r = "" -> run_stderr r = "" ->
  execute_python code false s
  = mkRun match eval_end v with
          | Done last_value =>
              match fst (py_repr last_value (eval_world v)) with
              | Done text => Returns ("Result: " ++ text)
              | Raised e => except_fallback e
              | Diverged => Hangs
              end
          | Raised e => except_fallback e
          | Diverged => Hangs
          end
          (mkSession (eval_namespace v)
                     match eval_end v with
                     | Done last_value => snd (py_repr last_value (eval_world v))
                     | _ => eval_world v
                     end)
          [EvExec code; EvEval last_line].
Proof.
  intros r last_line v Hend Hout Herr. unfold execute_python.
  fold r. rewrite Hend, Hout, Herr. cbn [nonempty negb andb global_namespace world].
  fold last_line. fold v.
  destruct (eval_end v) as [val|e|]; try reflexivity.
  destruct (py_repr val (eval_world v)) as [[text|e|] w3]; reflexivity.
Qed.

(** The run of [execute_python] when the code ran to its end and wrote. *)
Lemma execute_python_output (code : string) (s : session) :
  let r := py_exec code (global_namespace s) (world s) in
  run_end r = Done tt -> nonempty (run_stdout r) || nonempty (run_stderr r) = true ->
  execute_python code false s
  = mkRun (Returns ((if nonempty (run_stdout r)
                     then "Output:" ++ nl ++ run_stdout r else "")
                    ++ (if nonempty (run_stderr r)
                        then nl ++ "Errors:" ++ nl ++ run_stderr r else "")))
          (mkSession (run_namespace r) (run_world r))
          [EvExec code].
Proof.
  intros r Hend Hany. unfold execute_python. fold r. rewrite Hend.
  destruct (nonempty (run_stdout r)), (nonempty (run_stderr r));
    try discriminate; cbn [negb andb]; try reflexivity.
  now rewrite append_empty_r.
Qed.

(** The run of [execute_python] when the code raised. *)
Lemma execute_python_raised (code : string) (s : session) (e : exception) :
  let r := py_exec code (global_namespace s) (world s) in
  run_end r = Raised e ->
  execute_python code false s
  = mkRun (except_Exception e) (mkSession (run_namespace r) (run_world r)) [EvExec code].
Proof. intros r Hend. unfold execute_python. fold r. now rewrite Hend. Qed.

Lemma except_Exception_contained (e : exception) :
  isinstance e [Exception] = true ->
  except_Exception e = Returns ("Error executing code:" ++ nl ++ format_exc e).
Proof. intros H. unfold except_Exception. now rewrite H. Qed.

(** The two handlers together return a text for an instance of [Exception]. *)
Lemma except_fallback_contained (e : exception) :
  isinstance e [Exception] = true -> exists text, except_fallback e = Returns text.
Proof.
  intros H. unfold except_fallback.
  destruct (isinstance e [SyntaxError; ValueError; NameError]); [now eexists|].
  rewrite (except_Exception_contained e H). now eexists.
Qed.

(** With [check=True] a completed process has exit status zero. *)
Lemma subprocess_run_checked (argv : list string) (w w' : World)
    (process : completed_process) :
  subprocess_run argv true w = (Done process, w') -> returncode process = 0%Z.
Proof.
  unfold subprocess_run. destruct (os_spawn argv w) as [[rc out err|e|] w1]; try discriminate.
  destruct (rc =? 0)%Z eqn:E; simpl; [|discriminate].
  intros [= <- _]. now apply Z.eqb_eq.
Qed.

Lemma install_package_rejected (package : string) (s : session) :
  re_match_package package = false ->
  install_package package s = mkRun (Returns ("Invalid package name: " ++ package)) s [].
Proof. intros H. unfold install_package. now rewrite H. Qed.

Lemma bound_module_name (package : string) :
  re_match_package package = true -> item_first (split "[" package) = package.
Proof. intros H. now rewrite split_without by now apply accepted_no_bracket. Qed.

(** The run of [install_package] once the package manager has succeeded. *)
Lemma install_package_installed (package : string) (s : session)
    (process : completed_process) (w1 : World) :
  re_match_package package = true ->
  subprocess_run ["uv"; "pip"; "install"; package] true (world s) = (Done process, w1) ->
  let stmt := "import " ++ package in
  let r := py_exec stmt (global_namespace s) w1 in
  install_package package s
  = mkRun match run_end r with
          | Done _ => Returns ("Successfully installed and imported " ++ package)
          | Raised e =>
              if isinstance e [ImportError]
              then Returns ("Package installed but import failed: " ++ exc_str e)
              else except_CalledProcessError e
          | Diverged => Hangs
          end
          (mkSession (run_namespace r) (run_world r))
          [EvSubprocess ["uv"; "pip"; "install"; package]; EvExec stmt].
Proof.
  intros Hm Hrun stmt r. unfold install_package.
  rewrite Hm, Hrun, (subprocess_run_checked _ _ _ _ Hrun), (bound_module_name _ Hm).
  cbn [negb Z.eqb global_namespace world]. fold stmt. fold r.
  destruct (run_end r) as [u|e|]; try reflexivity.
  destruct (isinstance e [ImportError]); reflexivity.
Qed.

(** The run of [install_package] when running the package manager raised. *)
Lemma install_package_failed (package : string) (s : session)
    (e : exception) (w1 : World) :
  re_match_package package = true ->
  subprocess_run ["uv"; "pip"; "install"; package] true (world s) = (Raised e, w1) ->
  install_package package s
  = mkRun (except_CalledProcessError e) (mkSession (global_namespace s) w1)
          [EvSubprocess ["uv"; "pip"; "install"; package]].
Proof. intros Hm Hrun. unfold install_package. now rewrite Hm, Hrun. Qed.

(** An accepted name always reaches the package manager. *)
Lemma install_package_spawns (package : string) (s : session) :
  re_match_package package = true ->
  exists evs, events (install_package package s)
              = EvSubprocess ["uv"; "pip"; "install"; package] :: evs.
Proof.
  intros Hm. unfold install_package. rewrite Hm. cbn [negb].
  destruct (subprocess_run _ true (world s)) as [[process|e|] w1];
    try (eexists; reflexivity).
  destruct (negb (returncode process =? 0)%Z); try (eexists; reflexivity).
  match goal with |- context [run_end ?r] => destruct (run_end r) as [u|e|] end;
    try (eexists; reflexivity).
  destruct (isinstance e [ImportError]); eexists; reflexivity.
Qed.

(** *** The comprehension of [list_variables] *)

(** A key that the test leaves out makes no difference, whatever it is bound
    to. *)
Lemma comprehension_hidden (k : string) (v : value) (items : dict value) :
  listed k = false ->
  forall (w : World) (acc : dict string),
  comprehension (dict_set k v items) w acc = comprehension items w acc.
Proof.
  intros Hk. induction items as [|[k0 v0] items IH]; intros w acc.
  - cbn [dict_set comprehension]. now rewrite Hk.
  - cbn [dict_set]. destruct (String.eqb_spec k0 k) as [->|Hne].
    + cbn [comprehension]. now rewrite Hk.
    + cbn [comprehension]. destruct (listed k0); [|apply IH].
      destruct (py_repr v0 w) as [[text|e|] w']; [apply IH | reflexivity | reflexivity].
Qed.

(** When [repr] returns on the entries that pass the test and leaves the
    world as it is, the comprehension keeps those entries, each once, in
    their order. *)
Lemma comprehension_shown (shown : value -> string) (w : World) (items : dict value) :
  forall acc : dict string,
  NoDup (dict_keys items) ->
  (forall k, In k (dict_keys acc) -> ~ In k (dict_keys items)) ->
  (forall k v, In (k, v) items -> listed k = true -> py_repr v w = (Done (shown v), w)) ->
  comprehension items w acc
  = (Done (acc ++ map (fun kv => (fst kv, shown (snd kv)))
                    (filter (fun kv => listed (fst kv)) items))%list, w).
Proof.
  induction items as [|[k v] items IH]; intros acc Hnd Hdisj Hshown; cbn [comprehension].
  - cbn [filter map]. now rewrite app_nil_r.
  - cbn [dict_keys map fst] in Hnd. inversion Hnd as [|? ? Hk Hnd']; subst.
    cbn [filter fst]. destruct (listed k) eqn:Hlisted.
    + rewrite (Hshown k v (or_introl eq_refl) Hlisted).
      rewrite dict_set_fresh by (intros Hin; apply (Hdisj k Hin); now left).
      rewrite IH.
      * cbn [map fst snd]. now rewrite <- app_assoc.
      * assumption.
      * intros k'. unfold dict_keys. rewrite map_app, in_app_iff. cbn [map fst In].
        intros [Hin|[<-|[]]]; [|assumption].
        intros Hd. apply (Hdisj k' Hin). now right.
      * intros k' v' Hin. apply Hshown. now right.
    + apply IH; [assumption | |].
      * intros k' Hin Hd. apply (Hdisj k' Hin). now right.
      * intros k' v' Hin. apply Hshown. now right.
Qed.



Lemma list_variables_listing (shown : value -> string) (s : session) :
  dict_wf (global_namespace s) ->
  (forall k v, In (k, v) (global_namespace s) -> visible k = true ->
               py_repr v (world s) = (Done (shown v), world s)) ->
  list_variables s
  = mkRun (Returns (listing shown
                      (filter (fun kv => visible (fst kv)) (global_namespace s))))
          s [].
Proof.
  intros Hwf Hshown. unfold list_variables.
  rewrite (comprehension_shown shown (world s) (global_namespace s) [] Hwf).
  - rewrite (filter_ext (fun kv => listed (fst kv)) (fun kv => visible (fst kv)))
      by (intros kv; apply listed_visible).
    cbn [app]. unfold listing. destruct s as [ns w]. cbn [global_namespace world].
    destruct (filter _ ns) as [|kv kvs]; [reflexivity|].
    cbn [map]. rewrite map_map. reflexivity.
  - intros k [].
  - intros k v Hin Hk. apply (Hshown k v Hin). now rewrite <- (listed_visible k).
Qed.



(** [list_variables] runs no code through [exec] or [eval] and no command,
    and binds no name. *)
Lemma list_variables_reads (s : session) :
  events (list_variables s) = []
  /\ global_namespace (after (list_variables s)) = global_namespace s.
Proof.
  unfold list_variables.
  destruct (comprehension _ _ _) as [[[|kv d]|e|] w]; now split.
Qed.

End Tools.
(** ** The list example *)




(** ** Integers of many digits *)

Lemma string_length_uint (d : Decimal.uint) :
  String.length (NilEmpty.string_of_uint d) = Decimal.nb_digits d.
Proof.
  induction d; cbn [NilEmpty.string_of_uint String.length Decimal.nb_digits]; congruence.
Qed.

Lemma of_lu_bound (d : Decimal.uint) :
  (DecimalPos.Unsigned.of_lu d < 10 ^ N.of_nat (Decimal.nb_digits d))%N.
Proof.
  induction d; cbn [DecimalPos.Unsigned.of_lu Decimal.nb_digits];
    rewrite ?Nnat.Nat2N.inj_succ, ?N.pow_succ_r'; [reflexivity | lia ..].
Qed.

(** A number of at most [k] digits is below 10^[k]. *)
Lemma digits_bound (z : Z) (k : nat) :
  (int_digits z <= k)%nat -> (Z.abs z < 10 ^ Z.of_nat k)%Z.
Proof.
  assert (Hpos : forall p,
             (String.length (NilZero.string_of_uint (Pos.to_uint p)) <= k)%nat ->
             (Zpos p < 10 ^ Z.of_nat k)%Z).
  { intros p Hlen. rewrite numeral_nonnil, string_length_uint in Hlen.
    pose proof (of_lu_bound (Decimal.rev (Pos.to_uint p))) as Hb.
    rewrite <- DecimalPos.Unsigned.of_uint_alt, DecimalPos.Unsigned.of_to in Hb.
    rewrite DecimalFacts.nb_digits_rev in Hb.
    apply N2Z.inj_lt in Hb. rewrite N2Z.inj_pow, nat_N_Z in Hb.
    change (Z.of_N (N.pos p)) with (Z.pos p) in Hb. change (Z.of_N 10) with 10%Z in Hb.
    eapply Z.lt_le_trans; [exact Hb|].
    apply Z.pow_le_mono_r; lia. }
  destruct z as [|p|p]; unfold int_digits; cbn [Z.abs].
  - intros _. apply Z.pow_pos_nonneg; lia.
  - apply Hpos.
  - apply Hpos.
Qed.

Lemma many_digits (z : Z) (k : nat) :
  (10 ^ Z.of_nat k <= Z.abs z)%Z -> (k < int_digits z)%nat.
Proof.
  intros H. destruct (Nat.lt_ge_cases k (int_digits z)) as [Hlt|Hge]; [exact Hlt|].
  apply digits_bound in Hge. lia.
Qed.

Lemma zeros_digits (n : nat) : string_forall is_digit (zeros n) = true.
Proof. induction n as [|n IH]; [reflexivity | exact IH]. Qed.

Lemma zeros_length (n : nat) : String.length (zeros n) = n.
Proof. induction n as [|n IH]; cbn [zeros String.length]; congruence. Qed.

Lemma uint_of_zeros (n : nat) : NilEmpty.uint_of_string (zeros n) = Some (zeros_uint n).
Proof.
  induction n as [|n IH]; [reflexivity|].
  cbn [zeros NilEmpty.uint_of_string zeros_uint]. now rewrite IH.
Qed.

Lemma of_uint_acc_zeros (n : nat) (acc : positive) :
  Npos (Pos.of_uint_acc (zeros_uint n) acc) = (Npos acc * 10 ^ N.of_nat n)%N.
Proof.
  revert acc. induction n as [|n IH]; intros acc; cbn [zeros_uint Pos.of_uint_acc].
  - change (N.of_nat 0) with 0%N. rewrite N.pow_0_r. lia.
  - rewrite IH, Nnat.Nat2N.inj_succ, N.pow_succ_r'. lia.
Qed.

(** A literal of [5] and [n] zeros, within the limit. *)
Lemma int_literal_five (n : nat) :
  (S n <= max_str_digits)%nat ->
  int_literal (String "5" (zeros n)) = Some (five_and_zeros n).
Proof.
  intros H. unfold int_literal. cbn [String.length]. rewrite zeros_length.
  replace (max_str_digits <? S n)%nat with false by (symmetry; apply Nat.ltb_ge; exact H).
  unfold NilZero.uint_of_string. cbn [NilEmpty.uint_of_string]. rewrite uint_of_zeros.
  change (uint_of_char "5" (Some (zeros_uint n))) with (Some (Decimal.D5 (zeros_uint n))).
  cbv iota beta.
  change (N.of_uint (Decimal.D5 (zeros_uint n)))
    with (Npos (Pos.of_uint_acc (zeros_uint n) 5)).
  rewrite of_uint_acc_zeros.
  change (String.prefix "0" (String "5" (zeros n))) with false.
  reflexivity.
Qed.

Lemma lex_long_literal (n : nat) :
  (S n <= max_str_digits)%nat ->
  lex PNone ("y = 5" ++ zeros n) = Some [TName "y"; TAssign; TInt (five_and_zeros n)].
Proof.
  intros H.
  change ("y = 5" ++ zeros n) with ("y" ++ " = " ++ String "5" (zeros n)).
  rewrite (lex_word "y" "" _ eq_refl eq_refl).
  change (lex (PWord "y") (" = " ++ String "5" (zeros n)))
    with (option_map (app [TName "y"])
            (option_map (app [])
               (option_map (cons TAssign)
                  (option_map (app []) (option_map (app []) (lex (PNum "5") (zeros n))))))).
  rewrite <- (append_empty_r (zeros n)), (lex_num_run (zeros n) "5" "" (zeros_digits n)).
  cbn [lex flush append]. rewrite (int_literal_five n H). reflexivity.
Qed.

Section LongLiteral.
Variable n : nat.
Hypothesis Hn : (S n <= max_str_digits)%nat.

Lemma long_literal_no_LF :
  string_forall (fun c => negb (Ascii.eqb c LF)) (long_literal n) = true.
Proof.
  unfold long_literal. rewrite string_forall_app. cbn [andb].
  replace (string_forall (fun c => negb (Ascii.eqb c LF)) "y = 5") with true by reflexivity.
  apply (string_forall_impl is_digit); [apply digit_not_LF | apply zeros_digits].
Qed.

Lemma long_literal_last_line :
  item_last (split LF (strip (long_literal n))) = long_literal n.
Proof.
  assert (Hs : strip (long_literal n) = long_literal n).
  { unfold strip. change (lstrip (long_literal n)) with (long_literal n). apply rstrip_id.
    change (long_literal n) with ("y = " ++ String "5" (zeros n)). apply ends_solid_app.
    apply (ends_solid_forall is_digit);
      [apply digit_not_space | discriminate | exact (zeros_digits n)]. }
  rewrite Hs, split_without; [reflexivity | apply long_literal_no_LF].
Qed.

Lemma long_literal_lines :
  lex_lines (split LF (long_literal n)) = inr [[TName "y"; TAssign; TInt (five_and_zeros n)]].
Proof.
  rewrite split_without by apply long_literal_no_LF.
  cbn [lex_lines]. unfold long_literal at 1. rewrite (lex_long_literal n Hn). reflexivity.
Qed.

Lemma compile_exec_long_literal :
  compile_exec (long_literal n) = inr [SAssign "y" (EInt (five_and_zeros n))].
Proof. unfold compile_exec. now rewrite long_literal_lines. Qed.

Lemma compile_eval_long_literal : compile_eval (long_literal n) = inl syntax_error.
Proof.
  unfold compile_eval. change (lstrip_blanks (long_literal n)) with (long_literal n).
  now rewrite long_literal_lines.
Qed.

(** The call that binds [y] to 5 * 10^[n]. *)
Lemma execute_long_literal (frames : exception -> string)
    (s : session (PY := interpreter frames)) :
  execute_python (long_literal n) false s
  = mkRun (PY := interpreter frames) (Returns "Code executed successfully (no output)")
          (mkSession (PY := interpreter frames)
             (dict_set "y" (VInt (Z.of_N (five_and_zeros n)))
                       (ensure_builtins (global_namespace s)))
             (world s))
          [EvExec (long_literal n); EvEval (long_literal n)].
Proof.
  unfold execute_python.
  change (py_exec (Interpreter := interpreter frames)) with exec.
  change (py_eval (Interpreter := interpreter frames)) with eval.
  unfold exec. rewrite compile_exec_long_literal.
  cbn [exec_stmts exec_stmt eval_expr bind ret assign m_ns m_world m_out m_err m_builtins].
  cbn [run_end run_stdout run_stderr nonempty negb andb].
  cbn [run_namespace run_world global_namespace world].
  rewrite long_literal_last_line. unfold eval. rewrite compile_eval_long_literal.
  cbn [eval_end eval_namespace eval_world].
  now rewrite (ensure_builtins_set "y" (VInt (Z.of_N (five_and_zeros n)))
                 (global_namespace s)).
Qed.

End LongLiteral.

(** The call [y = y + y] on a session where [y] is an integer. *)
Lemma execute_doubling (frames : exception -> string) (v : Z)
    (s : session (PY := interpreter frames)) :
  dict_get (V := mvalue) "y" (global_namespace s) = Some (VInt v) ->
  execute_python "y = y + y" false s
  = mkRun (PY := interpreter frames) (Returns "Code executed successfully (no output)")
          (mkSession (PY := interpreter frames)
             (dict_set "y" (VInt (v + v)) (ensure_builtins (global_namespace s)))
             (world s))
          [EvExec "y = y + y"; EvEval "y = y + y"].
Proof.
  intros Hget.
  assert (Hget' : dict_get "y" (ensure_builtins (global_namespace s)) = Some (VInt v)).
  { rewrite ensure_builtins_get.
    change (dict_get (V := value (Interpreter := interpreter frames)) "y")
      with (dict_get (V := mvalue) "y").
    now rewrite Hget. }
  unfold execute_python.
  change (py_exec (Interpreter := interpreter frames)) with exec.
  change (py_eval (Interpreter := interpreter frames)) with eval.
  unfold exec.
  replace (compile_exec "y = y + y")
    with (@inr exception _ [SAssign "y" (EAdd (EName "y") (EName "y"))])
    by (vm_compute; reflexivity).
  unfold exec_stmts, exec_stmt, eval_expr, bind, lookup, assign, ret.
  cbn [m_ns m_world m_out m_err m_builtins]. rewrite Hget'.
  cbn [m_ns m_world m_out m_err m_builtins]. rewrite Hget'.
  cbn [run_end run_stdout run_stderr nonempty negb andb m_ns m_world m_out m_err m_builtins].
  cbn [run_namespace run_world global_namespace world].
  replace (item_last (split LF (strip "y = y + y"))) with "y = y + y"
    by (vm_compute; reflexivity).
  unfold eval.
  replace (compile_eval "y = y + y") with (@inl exception expr syntax_error)
    by (vm_compute; reflexivity).
  cbn [eval_end eval_namespace eval_world].
  now rewrite (ensure_builtins_set "y" (VInt (v + v)) (global_namespace s)).
Qed.



(** The number 10^[k] has more than [k] digits. *)
Lemma power_of_ten_digits (k : nat) : (k < int_digits (10 ^ Z.of_nat k))%nat.
Proof.
  apply many_digits.
  assert (H : (0 < 10 ^ Z.of_nat k)%Z) by (apply Z.pow_pos_nonneg; lia).
  revert H. generalize (10 ^ Z.of_nat k)%Z. intros m H. lia.
Qed.

Lemma five_and_zeros_doubled (n : nat) :
  (Z.of_N (five_and_zeros n) + Z.of_N (five_and_zeros n) = 10 ^ Z.of_nat (S n))%Z.
Proof.
  unfold five_and_zeros.
  rewrite N2Z.inj_mul, N2Z.inj_pow, nat_N_Z, Nat2Z.inj_succ, Z.pow_succ_r by lia.
  change (Z.of_N 5) with 5%Z. change (Z.of_N 10) with 10%Z.
  generalize (10 ^ Z.of_nat n)%Z. intros m. lia.
Qed.

(** The namespace of the server after [y] has been bound twice. *)
Lemma bound_twice (v v' : mvalue) :
  dict_set "y" v'
    (ensure_builtins
       (dict_set "y" v (ensure_builtins [("__builtins__", VModule "builtins")])))
  = [("__builtins__", VModule "builtins"); ("y", v')].
Proof. reflexivity. Qed.

(** The two calls of [long_integer_calls] leave [y] bound to 10^4300, which
    has 4301 digits. *)
Lemma long_integer_session :
  execute_all (PY := interpreter bare_frames) long_integer_calls fresh_session
  = mkSession (PY := interpreter bare_frames)
      [("__builtins__", VModule "builtins"); ("y", VInt (10 ^ Z.of_nat 4300))] fresh_world.
Proof.
  unfold long_integer_calls, execute_all. cbn [fold_left].
  rewrite (execute_long_literal 4299 (Nat.le_refl _) bare_frames fresh_session).
  cbn [after].
  rewrite (execute_doubling bare_frames (Z.of_N (five_and_zeros 4299))) by reflexivity.
  cbn [after global_namespace world].
  rewrite (five_and_zeros_doubled 4299).
  exact (f_equal (fun ns => mkSession (PY := interpreter bare_frames) ns fresh_world)
                 (bound_twice (VInt (Z.of_N (five_and_zeros 4299)))
                              (VInt (10 ^ Z.of_nat 4300)))).
Qed.


(** The call [y] on that session: the [ValueError] of [repr] is swallowed by
    the handler around the evaluation of the last line. *)
Lemma long_integer_not_shown :
  result (execute_python "y" false
            (execute_all (PY := interpreter bare_frames) long_integer_calls fresh_session))
  = Returns "Code executed successfully (no output)".
Proof.
  rewrite long_integer_session.
  rewrite (execute_name bare_frames "y" (VInt (10 ^ Z.of_nat 4300)));
    [| reflexivity | reflexivity].
  cbn [result]. unfold repr. cbn [fst].
  rewrite repr_value_long by exact (power_of_ten_digits 4300). reflexivity.
Qed.
(** * The claims of the specification *)

(** C1: namespace bindings persist across calls.  After any sequence of calls
    that each bind a name to an integer, a call whose code is a name bound
    earlier returns the value of its latest binding under [Result:]; in
    particular, after the call [x = 5] the call [x] returns [Result: 5].  A
    call [x = z] binds when [x] is a name that can be bound (an identifier
    that is neither a keyword nor [__debug__]) and the numeral of [z] has at
    most 4300 digits; a longer literal is a syntax error and binds nothing. *)
Theorem namespace_bindings_persist :
  (forall (frames : exception -> string) (calls : list (string * Z))
          (x : string) (z : Z) (s : session (PY := interpreter frames)),
      Forall (fun c => binds c = true) calls ->
      latest x calls = Some z ->
      result (execute_python x false (execute_all (bindings calls) s))
      = Returns ("Result: " ++ str_of_Z z))
  /\ (forall (frames : exception -> string) (s : session (PY := interpreter frames)),
      result (execute_python "x" false (after (execute_python "x = 5" false s)))
      = Returns "Result: 5").
Proof.
  split.
  - intros frames calls x z s. apply latest_binding_observed.
  - intros frames s.
    apply (latest_binding_observed frames [("x", 5%Z)] "x" 5%Z s).
    + repeat constructor.
    + reflexivity.
Qed.

Lemma namespace_bindings_persist_witness :
  Forall (fun c => binds c = true) [("x", 5%Z); ("total", (-3)%Z); ("x", 7%Z)]
  /\ latest "x" [("x", 5%Z); ("total", (-3)%Z); ("x", 7%Z)] = Some 7%Z
  /\ result (execute_python (PY := interpreter bare_frames) "x" false
               (execute_all ["x = 5"; "total = -3"; "x = 7"]
                            fresh_session))
     = Returns "Result: 7".
Proof.
  assert (Hcalls : Forall (fun c => binds c = true)
                          [("x", 5%Z); ("total", (-3)%Z); ("x", 7%Z)])
    by (repeat constructor).
  split; [exact Hcalls|]. split; [reflexivity|].
  exact (proj1 namespace_bindings_persist bare_frames
           [("x", 5%Z); ("total", (-3)%Z); ("x", 7%Z)] "x" 7%Z
           fresh_session Hcalls eq_refl).
Defined.


(** C3, as the specification states it, fails: [SystemExit] is not an
    instance of [Exception], so [except Exception:] lets it through and the
    call ends with the exception instead of a text. *)
Lemma system_exit_leaves_execute_python :
  result (execute_python "raise SystemExit" false fresh_session)
  = Raises (mkExc SystemExit "" "")
  /\ ~ exists text,
       result (execute_python "raise SystemExit" false fresh_session) = Returns text.
Proof.
  split; [reflexivity|]. intros [text H]. vm_compute in H. discriminate.
Qed.

(** C3, amended: a fault that is an instance of [Exception] raised while the
    submitted code runs is captured.  Inside the [try] there are up to three
    steps: the run of the code and, after a run without output, the
    evaluation of its last line and the [repr] of the value.  When each step
    that is reached ends with a value or with an instance of [Exception], the
    call returns a text, and on a fault of the code that text is the failure
    report with the formatted trace.  A fault of the code that is not an
    instance of [Exception] leaves the tool function. *)
Theorem exception_faults_captured :
  (forall (PY : Interpreter) (code : string) (s : session),
      let r := py_exec code (global_namespace s) (world s) in
      let v := py_eval (item_last (split LF (strip code)))
                       (run_namespace r) (run_world r) in
      contained (run_end r) = true ->
      (run_end r = Done tt -> run_stdout r = "" -> run_stderr r = "" ->
       contained (eval_end v) = true
       /\ forall last_value, eval_end v = Done last_value ->
            contained (fst (py_repr last_value (eval_world v))) = true) ->
      exists text,
        result (execute_python code false s) = Returns text
        /\ (forall e, run_end r = Raised e ->
            text = "Error executing code:" ++ nl ++ format_exc e))
  /\ (forall (PY : Interpreter) (code : string) (s : session) (e : exception),
      run_end (py_exec code (global_namespace s) (world s)) = Raised e ->
      isinstance e [Exception] = false ->
      result (execute_python code false s) = Raises e).
Proof.
  split.
  - intros PY code s r v Hr Hv.
    destruct (run_end r) as [[]|e|] eqn:Hend; [| |discriminate].
    + destruct (nonempty (run_stdout r) || nonempty (run_stderr r)) eqn:Hany.
      * rewrite (execute_python_output code s Hend Hany).
        eexists. split; [reflexivity | discriminate].
      * apply orb_false_iff in Hany as [Hout Herr].
        apply nonempty_false in Hout, Herr.
        rewrite (execute_python_silent code s Hend Hout Herr). fold r. fold v.
        destruct (Hv eq_refl Hout Herr) as [Hval Hrepr]. cbn [result].
        destruct (eval_end v) as [val|e|]; [| |discriminate].
        -- specialize (Hrepr val eq_refl).
           destruct (fst (py_repr val (eval_world v))) as [text|e|]; [| |discriminate].
           ++ eexists. split; [reflexivity | discriminate].
           ++ destruct (except_fallback_contained e Hrepr) as [text ->].
              eexists. split; [reflexivity | discriminate].
        -- destruct (except_fallback_contained e Hval) as [text ->].
           eexists. split; [reflexivity | discriminate].
    + rewrite (execute_python_raised code s e Hend), (except_Exception_contained e Hr).
      eexists. split; [reflexivity|]. now intros e' [= <-].
  - intros PY code s e Hend He.
    rewrite (execute_python_raised code s e Hend). cbn [result].
    unfold except_Exception. now rewrite He.
Qed.

Lemma exception_faults_captured_witness :
  exists text,
    result (execute_python "raise ValueError" false fresh_session) = Returns text
    /\ (forall e,
        run_end (py_exec "raise ValueError" (global_namespace fresh_session)
                         (world fresh_session)) = Raised e ->
        text = "Error executing code:" ++ nl
               ++ format_exc (Interpreter := interpreter bare_frames) e).
Proof.
  apply (proj1 exception_faults_captured (interpreter bare_frames)
           "raise ValueError" fresh_session).
  - reflexivity.
  - intros H. vm_compute in H. discriminate.
Defined.




(** C5: an identifier that [re.match] rejects, such as [foo bar] or [-rf],
    gets the invalid-name text, and neither the package manager nor the
    interpreter is asked anything.  But the name [numpy] followed by a line
    feed is not a name of the pattern the specification describes, yet
    [re.match] accepts it, since [$] also matches before a final line feed,
    and [install_package] runs the package manager on it. *)
Theorem trailing_line_feed_accepted (PY : Interpreter) (s : session) :
  (forall package : string,
      re_match_package package = false ->
      install_package package s
      = mkRun (Returns ("Invalid package name: " ++ package)) s [])
  /\ re_match_package "foo bar" = false
  /\ re_match_package "-rf" = false
  /\ filename_safe ("numpy" ++ nl) = false
  /\ re_match_package ("numpy" ++ nl) = true
  /\ exists evs,
       events (install_package ("numpy" ++ nl) s)
       = EvSubprocess ["uv"; "pip"; "install"; "numpy" ++ nl] :: evs.
Proof.
  split; [intros package; apply install_package_rejected|].
  do 4 (split; [reflexivity|]).
  now apply install_package_spawns.
Qed.




(** C7, as the specification states it, fails: the last line of the code
    below is a bare expression and the code runs in silence, but the second
    evaluation of that line finds the list empty, and the call returns a
    fault report instead of [Result:] and the value.  Nor is a value always
    shown when the evaluation gives one: once [y] is an integer of 4301
    digits, the call [y] runs in silence, the [repr] of the value raises
    [ValueError], and the text is the no-output message. *)
Lemma bare_expression_without_result :
  let code := "stack = []" ++ nl ++ "stack.append(7)" ++ nl ++ "stack.pop()" in
  let r := py_exec code (global_namespace fresh_session) (world fresh_session) in
  (run_end r = Done tt /\ run_stdout r = "" /\ run_stderr r = ""
   /\ item_last (split LF (strip code)) = "stack.pop()"
   /\ compile_eval "stack.pop()" = inr (EPop "stack")
   /\ result (execute_python code false fresh_session)
      = Returns ("Error executing code:" ++ nl
                 ++ "Traceback (most recent call last):" ++ nl
                 ++ "IndexError: pop from empty list" ++ nl)
   /\ ~ exists text,
        result (execute_python code false fresh_session) = Returns ("Result: " ++ text))
  /\ result (execute_python "y" false (execute_all long_integer_calls fresh_session))
     = Returns "Code executed successfully (no output)".
Proof.
  split; [|exact long_integer_not_shown].
  repeat split. intros [text H]. vm_compute in H. discriminate.
Qed.

(** C7, amended: when the code runs to its end without captured output, the
    evaluation of its last line, after the run, yields a value and the
    [repr] of that value returns a text, the call returns that text under
    [Result:]; the last line [2 + 2] gives [Result: 4].  Captured standard
    output is echoed under [Output:], captured standard error under
    [Errors:], and both appear together when both were written. *)
Theorem result_and_output_labels :
  (forall (PY : Interpreter) (code : string) (s : session) (last_value : value)
          (text : string) (w3 : World),
      let r := py_exec code (global_namespace s) (world s) in
      let v := py_eval (item_last (split LF (strip code)))
                       (run_namespace r) (run_world r) in
      run_end r = Done tt -> run_stdout r = "" -> run_stderr r = "" ->
      eval_end v = Done last_value ->
      py_repr last_value (eval_world v) = (Done text, w3) ->
      result (execute_python code false s) = Returns ("Result: " ++ text))
  /\ (forall (PY : Interpreter) (code : string) (s : session),
      let r := py_exec code (global_namespace s) (world s) in
      run_end r = Done tt ->
      (run_stdout r <> "" -> run_stderr r = "" ->
       result (execute_python code false s)
       = Returns ("Output:" ++ nl ++ run_stdout r))
      /\ (run_stdout r = "" -> run_stderr r <> "" ->
          result (execute_python code false s)
          = Returns (nl ++ "Errors:" ++ nl ++ run_stderr r))
      /\ (run_stdout r <> "" -> run_stderr r <> "" ->
          result (execute_python code false s)
          = Returns ("Output:" ++ nl ++ run_stdout r
                     ++ nl ++ "Errors:" ++ nl ++ run_stderr r)))
  /\ (forall (frames : exception -> string) (s : session (PY := interpreter frames)),
      result (execute_python "2 + 2" false s) = Returns "Result: 4")
  /\ result (execute_python "print(5)" false fresh_session)
     = Returns ("Output:" ++ nl ++ "5" ++ nl)
  /\ result (execute_python
               ("import sys" ++ nl ++ "print(7, file=sys.stderr)" ++ nl ++ "print(1 + 2)")
               false fresh_session)
     = Returns ("Output:" ++ nl ++ "3" ++ nl ++ nl ++ "Errors:" ++ nl ++ "7" ++ nl).
Proof.
  split; [| split; [| split; [| split]]].
  - intros PY code s last_value text w3 r v Hend Hout Herr Hval Hrepr. subst v r.
    rewrite (execute_python_silent code s Hend Hout Herr). cbn [result].
    now rewrite Hval, Hrepr.
  - intros PY code s r Hend. subst r.
    split; [| split]; intros Hout Herr.
    + rewrite execute_python_output; [| assumption |].
      * rewrite Herr. apply nonempty_true in Hout. rewrite Hout. cbn [nonempty result].
        now rewrite append_empty_r.
      * apply nonempty_true in Hout. now rewrite Hout.
    + rewrite execute_python_output; [| assumption |].
      * rewrite Hout. apply nonempty_true in Herr. rewrite Herr. reflexivity.
      * apply nonempty_true in Herr. rewrite Herr. apply orb_true_r.
    + rewrite execute_python_output; [| assumption |].
      * apply nonempty_true in Hout, Herr. rewrite Hout, Herr. cbn [result].
        now rewrite !append_assoc.
      * apply nonempty_true in Hout. now rewrite Hout.
  - intros frames s. reflexivity.
  - reflexivity.
  - reflexivity.
Qed.

Lemma result_and_output_labels_witness :
  result (execute_python "2 + 2" false fresh_session) = Returns "Result: 4".
Proof.
  apply (proj1 result_and_output_labels (interpreter bare_frames)
           "2 + 2" fresh_session (VInt 4) "4" fresh_world); reflexivity.
Defined.








(** * Further properties of the server *)

(** ** The initialization hook *)

Lemma startswith_app (p s : string) : startswith p (p ++ s) = true.
Proof.
  unfold startswith. induction p as [|c p IH]; simpl; [now destruct s|].
  destruct (ascii_dec c c); [assumption | congruence].
Qed.

Lemma slice_from_app (p s : string) : slice_from (String.length p) (p ++ s) = s.
Proof. induction p as [|c p IH]; simpl; [now destruct s | assumption]. Qed.

Lemma startswith_inv (p s : string) :
  startswith p s = true -> s = p ++ slice_from (String.length p) s.
Proof.
  unfold startswith. revert s. induction p as [|c p IH]; intros s; simpl.
  - now destruct s.
  - destruct s as [|d s]; [intros [=]|].
    change (String.prefix (String c p) (String d s))
      with (if ascii_dec c d then String.prefix p s else false).
    destruct (ascii_dec c d) as [->|]; [|intros [=]].
    intros H. cbn [String.length slice_from append]. now rewrite <- (IH s H).
Qed.

Section HookProperties.
Variable Cwd : Type.
Variable os_chdir : string -> Cwd -> completion unit * Cwd.

Lemma hook_without_roots (roots : option (list string)) (d : Cwd) :
  roots = None \/ roots = Some [] ->
  handle_initialized os_chdir (Done roots) d
  = mkHook (Done tt) d [CtxInfo "Setting up root monitoring..."] [].
Proof. now intros [-> | ->]. Qed.

Lemma hook_first_root_only (root : string) (rest rest' : list string) (d : Cwd) :
  handle_initialized os_chdir (Done (Some (root :: rest))) d
  = handle_initialized os_chdir (Done (Some (root :: rest'))) d.
Proof. reflexivity. Qed.

Lemma hook_tries_first_root (roots : completion (option (list string))) (d : Cwd)
    (path : string) :
  In path (hook_chdirs (handle_initialized os_chdir roots d)) ->
  exists root rest, roots = Done (Some (root :: rest)) /\ path = root_path root.
Proof.
  intros H.
  destruct roots as [[[|root rest]|]|e|]; cbn [handle_initialized] in H.
  - destruct H.
  - exists root, rest. split; [reflexivity|].
    destruct (os_chdir (root_path root) d) as [[[]|e|] d'].
    + destruct H as [<-|[]]. reflexivity.
    + unfold except_initialization in H.
      destruct (isinstance e [OSError]), (isinstance e [Exception]);
        destruct H as [<-|[]]; reflexivity.
    + destruct H as [<-|[]]. reflexivity.
  - destruct H.
  - unfold except_initialization in H.
    destruct (isinstance e [Exception]); destruct H.
  - destruct H.
Qed.

Lemma hook_contains_faults (roots : completion (option (list string))) (d : Cwd) :
  contained roots = true ->
  (forall root rest, roots = Done (Some (root :: rest)) ->
                     contained (fst (os_chdir (root_path root) d)) = true) ->
  hook_end (handle_initialized os_chdir roots d) = Done tt.
Proof.
  intros Hroots Hchdir.
  destruct roots as [[[|root rest]|]|e|]; cbn [handle_initialized]; try reflexivity.
  - specialize (Hchdir root rest eq_refl).
    destruct (os_chdir (root_path root) d) as [[[]|e|] d']; cbn [fst] in Hchdir;
      try reflexivity; try discriminate.
    destruct (isinstance e [OSError]); [reflexivity|].
    unfold except_initialization. cbn [contained] in Hchdir. now rewrite Hchdir.
  - unfold except_initialization. cbn [contained] in Hroots. now rewrite Hroots.
  - discriminate.
Qed.

Lemma hook_chdir_failure (root : string) (rest : list string) (d d' : Cwd)
    (e : exception) :
  os_chdir (root_path root) d = (Raised e, d') ->
  isinstance e [OSError] = true ->
  handle_initialized os_chdir (Done (Some (root :: rest))) d
  = mkHook (Done tt) d'
           [CtxInfo "Setting up root monitoring...";
            CtxError ("Failed to change directory to " ++ root_path root
                      ++ ": " ++ exc_str e)]
           [root_path root].
Proof. intros Hc He. cbn [handle_initialized]. now rewrite Hc, He. Qed.

End HookProperties.

(** X1: the path taken from a root.  A root that starts with [file://] loses
    exactly that prefix, whatever follows it, and any other root is taken as
    it is; so [file://] put before a path is taken off again. *)
Theorem root_path_strips_file_scheme :
  (forall path : string, root_path ("file://" ++ path) = path)
  /\ (forall root : string,
      startswith "file://" root = true -> root = "file://" ++ root_path root)
  /\ (forall root : string,
      startswith "file://" root = false -> root_path root = root).
Proof.
  split; [| split].
  - intros path. unfold root_path. rewrite startswith_app.
    exact (slice_from_app "file://" path).
  - intros root H. unfold root_path. rewrite H.
    exact (startswith_inv "file://" root H).
  - intros root H. unfold root_path. now rewrite H.
Qed.

Lemma root_path_strips_file_scheme_witness :
  "file:///home/user/project" = "file://" ++ root_path "file:///home/user/project"
  /\ root_path "/tmp" = "/tmp".
Proof.
  destruct root_path_strips_file_scheme as (_ & Hscheme & Hplain).
  split; [apply Hscheme | apply Hplain]; reflexivity.
Defined.

(** X2: the hook keeps faults to itself.  When the answer of the client and
    [os.chdir] each end with a value or with an instance of [Exception], the
    hook ends normally; a directory change that fails with an [OSError] is
    reported by one call of [ctx.error] that names the path and the error,
    after which the working directory is the one [os.chdir] has left. *)
Theorem hook_reports_faults :
  (forall (Cwd : Type) (os_chdir : string -> Cwd -> completion unit * Cwd)
          (roots : completion (option (list string))) (d : Cwd),
      contained roots = true ->
      (forall root rest, roots = Done (Some (root :: rest)) ->
                         contained (fst (os_chdir (root_path root) d)) = true) ->
      hook_end (handle_initialized os_chdir roots d) = Done tt)
  /\ (forall (Cwd : Type) (os_chdir : string -> Cwd -> completion unit * Cwd)
             (root : string) (rest : list string) (d d' : Cwd) (e : exception),
      os_chdir (root_path root) d = (Raised e, d') ->
      isinstance e [OSError] = true ->
      handle_initialized os_chdir (Done (Some (root :: rest))) d
      = mkHook (Done tt) d'
               [CtxInfo "Setting up root monitoring...";
                CtxError ("Failed to change directory to " ++ root_path root
                          ++ ": " ++ exc_str e)]
               [root_path root]).
Proof.
  split.
  - intros Cwd os_chdir. apply hook_contains_faults.
  - intros Cwd os_chdir. apply hook_chdir_failure.
Qed.

Lemma hook_reports_faults_witness :
  handle_initialized toy_chdir (Done (Some ["file:///nowhere"; "/tmp"])) "/"
  = mkHook (Done tt) "/"
           [CtxInfo "Setting up root monitoring...";
            CtxError ("Failed to change directory to /nowhere: "
                      ++ "[Errno 2] No such file or directory: '/nowhere'")]
           ["/nowhere"].
Proof.
  apply (proj2 hook_reports_faults string toy_chdir "file:///nowhere" ["/tmp"] "/" "/"
           (mkExc FileNotFoundError
                  "[Errno 2] No such file or directory: '/nowhere'" ""));
    reflexivity.
Defined.

(** X3: the hook looks at the first root only.  The only directory it ever
    tries to enter is the path of the first root, the roots after the first
    make no difference, and when the client has no roots it tries none and
    leaves the working directory as it is. *)
Theorem hook_uses_first_root_only :
  (forall (Cwd : Type) (os_chdir : string -> Cwd -> completion unit * Cwd)
          (roots : completion (option (list string))) (d : Cwd) (path : string),
      In path (hook_chdirs (handle_initialized os_chdir roots d)) ->
      exists root rest, roots = Done (Some (root :: rest)) /\ path = root_path root)
  /\ (forall (Cwd : Type) (os_chdir : string -> Cwd -> completion unit * Cwd)
             (root : string) (rest rest' : list string) (d : Cwd),
      handle_initialized os_chdir (Done (Some (root :: rest))) d
      = handle_initialized os_chdir (Done (Some (root :: rest'))) d)
  /\ (forall (Cwd : Type) (os_chdir : string -> Cwd -> completion unit * Cwd)
             (roots : option (list string)) (d : Cwd),
      roots = None \/ roots = Some [] ->
      handle_initialized os_chdir (Done roots) d
      = mkHook (Done tt) d [CtxInfo "Setting up root monitoring..."] []).
Proof.
  split; [| split].
  - intros Cwd os_chdir. apply hook_tries_first_root.
  - intros Cwd os_chdir. apply hook_first_root_only.
  - intros Cwd os_chdir. apply hook_without_roots.
Qed.

Lemma hook_uses_first_root_only_witness :
  exists root rest,
    Done (Some ["file:///tmp"; "/home/user/project"]) = Done (Some (root :: rest))
    /\ "/tmp" = root_path root.
Proof.
  apply (proj1 hook_uses_first_root_only string toy_chdir
           (Done (Some ["file:///tmp"; "/home/user/project"])) "/" "/tmp").
  left. reflexivity.
Defined.

(** ** What [install_package] runs *)

Section InstallProperties.
Context `{PY : Interpreter}.

Lemma install_package_blocked (package : string) (s : session) (w1 : World) :
  re_match_package package = true ->
  subprocess_run ["uv"; "pip"; "install"; package] true (world s) = (Diverged, w1) ->
  install_package package s
  = mkRun Hangs (mkSession (global_namespace s) w1)
          [EvSubprocess ["uv"; "pip"; "install"; package]].
Proof. intros Hm Hrun. unfold install_package. now rewrite Hm, Hrun. Qed.

(** The four ways through [install_package]. *)
Lemma install_package_cases (package : string) (s : session) :
  let argv := ["uv"; "pip"; "install"; package] in
  (re_match_package package = false
   /\ install_package package s
      = mkRun (Returns ("Invalid package name: " ++ package)) s [])
  \/ (re_match_package package = true
      /\ exists e w1,
           subprocess_run argv true (world s) = (Raised e, w1)
           /\ install_package package s
              = mkRun (except_CalledProcessError e)
                      (mkSession (global_namespace s) w1) [EvSubprocess argv])
  \/ (re_match_package package = true
      /\ exists w1,
           subprocess_run argv true (world s) = (Diverged, w1)
           /\ install_package package s
              = mkRun Hangs (mkSession (global_namespace s) w1) [EvSubprocess argv])
  \/ (re_match_package package = true
      /\ exists process w1 text,
           subprocess_run argv true (world s) = (Done process, w1)
           /\ returncode process = 0%Z
           /\ (text = Returns ("Successfully installed and imported " ++ package)
               \/ (exists e, text = Returns ("Package installed but import failed: "
                                             ++ exc_str e))
               \/ (exists e, text = except_CalledProcessError e)
               \/ text = Hangs)
           /\ exists s2,
                install_package package s
                = mkRun text s2 [EvSubprocess argv; EvExec ("import " ++ package)]).
Proof.
  intros argv. destruct (re_match_package package) eqn:Hm.
  - right. destruct (subprocess_run argv true (world s)) as [[process|e|] w1] eqn:Hrun.
    + right. right. split; [reflexivity|].
      rewrite (install_package_installed package s process w1 Hm Hrun).
      exists process, w1. eexists. split; [reflexivity|].
      split; [exact (subprocess_run_checked _ _ _ _ Hrun)|].
      split; [|eexists; reflexivity].
      destruct (run_end _) as [u|e|]; [now left | | now (right; right; right)].
      destruct (isinstance e [ImportError]); right; [left | right; left]; now exists e.
    + left. split; [reflexivity|]. exists e, w1. split; [reflexivity|].
      now apply install_package_failed.
    + right. left. split; [reflexivity|]. exists w1. split; [reflexivity|].
      now apply install_package_blocked.
  - left. split; [reflexivity|]. now apply install_package_rejected.
Qed.

Lemma except_CalledProcessError_text (e : exception) (err : string) :
  except_CalledProcessError e <> Returns ("Failed to install package: " ++ err).
Proof.
  unfold except_CalledProcessError. destruct (isinstance e [CalledProcessError]).
  - intros H. now inversion H.
  - discriminate.
Qed.

End InstallProperties.

(** X4: what [install_package] runs.  The only command it ever runs is
    [uv pip install] with the identifier as the one further argument, and
    only for an identifier the validation accepts; the only statement it ever
    executes is the import of that identifier, and only after the package
    manager has ended with exit status zero; it never evaluates an
    expression. *)
Theorem install_runs_import_after_success (PY : Interpreter) (package : string)
    (s : session) :
  let argv := ["uv"; "pip"; "install"; package] in
  let evs := events (install_package package s) in
  (forall argv', In (EvSubprocess argv') evs ->
                 argv' = argv /\ re_match_package package = true)
  /\ (forall code, In (EvExec code) evs ->
        code = "import " ++ package
        /\ exists process w1,
             subprocess_run argv true (world s) = (Done process, w1)
             /\ returncode process = 0%Z)
  /\ (forall source, ~ In (EvEval source) evs).
Proof.
  intros argv evs. subst evs.
  destruct (install_package_cases package s)
    as [[Hm ->] | [[Hm (e & w1 & Hrun & ->)] | [[Hm (w1 & Hrun & ->)]
       | [Hm (process & w1 & text & Hrun & Hrc & _ & s2 & ->)]]]];
    cbn [events]; fold argv.
  - split; [| split]; intros ? [].
  - split; [| split].
    + intros argv' [H|[]]. injection H as <-. now split.
    + intros code [H|[]]. discriminate H.
    + intros source [H|[]]. discriminate H.
  - split; [| split].
    + intros argv' [H|[]]. injection H as <-. now split.
    + intros code [H|[]]. discriminate H.
    + intros source [H|[]]. discriminate H.
  - split; [| split].
    + intros argv' [H|[H|[]]]; [|discriminate H]. injection H as <-. now split.
    + intros code [H|[H|[]]]; [discriminate H|]. injection H as <-.
      split; [reflexivity|]. now exists process, w1.
    + intros source [H|[H|[]]]; discriminate H.
Qed.

(** X5: the test of the exit status after [subprocess.run] never fires.  With
    [check=True] a process that ends with another status than zero raises, so
    the text [Failed to install package: ] followed by the error stream in
    the same line is never returned; a failed installation is reported by
    the handler, with the error stream starting on a line of its own. *)
Theorem returncode_branch_unreachable (PY : Interpreter) (package : string)
    (s : session) (err : string) :
  result (install_package package s) <> Returns ("Failed to install package: " ++ err).
Proof.
  destruct (install_package_cases package s)
    as [[Hm ->] | [[Hm (e & w1 & Hrun & ->)] | [[Hm (w1 & Hrun & ->)]
       | [Hm (process & w1 & text & Hrun & Hrc & Htext & s2 & ->)]]]];
    cbn [result].
  - intros H. now inversion H.
  - apply except_CalledProcessError_text.
  - discriminate.
  - destruct Htext as [-> | [[e ->] | [[e ->] | ->]]].
    + intros H. now inversion H.
    + intros H. now inversion H.
    + apply except_CalledProcessError_text.
    + discriminate.
Qed.

(** X6: [install_package] changes the namespace through the import only.
    When it executes no statement (the identifier is rejected, or the package
    manager fails, or cannot be started, or blocks), the namespace after the
    call is the namespace before it. *)
Theorem install_without_import_keeps_namespace (PY : Interpreter) (package : string)
    (s : session) :
  (forall code, ~ In (EvExec code) (events (install_package package s))) ->
  global_namespace (after (install_package package s)) = global_namespace s.
Proof.
  intros Hnone.
  destruct (install_package_cases package s)
    as [[Hm H] | [[Hm (e & w1 & Hrun & H)] | [[Hm (w1 & Hrun & H)]
       | [Hm (process & w1 & text & Hrun & Hrc & _ & s2 & H)]]]];
    rewrite H in *; cbn [after global_namespace events] in *; try reflexivity.
  exfalso. apply (Hnone ("import " ++ package)). right. now left.
Qed.

Lemma install_without_import_keeps_namespace_witness :
  global_namespace (after (install_package "nosuch" fresh_session))
  = global_namespace fresh_session.
Proof.
  apply (install_without_import_keeps_namespace (interpreter bare_frames)).
  intros code [H|[]]. discriminate H.
Defined.

(** ** What [execute_python] runs *)

Section ExecuteProperties.
Context `{PY : Interpreter}.

Lemma execute_python_diverged (code : string) (s : session) :
  let r := py_exec code (global_namespace s) (world s) in
  run_end r = Diverged ->
  execute_python code false s
  = mkRun Hangs (mkSession (run_namespace r) (run_world r)) [EvExec code].
Proof. intros r Hend. unfold execute_python. fold r. now rewrite Hend. Qed.

(** The events of a call without reset: the run of the code, and the
    evaluation of its last line exactly after a silent run. *)
Lemma execute_python_events (code : string) (s : session) :
  let r := py_exec code (global_namespace s) (world s) in
  let silent := match run_end r with
                | Done _ => negb (nonempty (run_stdout r)) && negb (nonempty (run_stderr r))
                | _ => false
                end in
  events (execute_python code false s)
  = if silent then [EvExec code; EvEval (item_last (split LF (strip code)))]
    else [EvExec code].
Proof.
  intros r silent. subst silent. unfold execute_python. fold r.
  destruct (run_end r) as [u|e|]; try reflexivity.
  destruct (negb (nonempty (run_stdout r)) && negb (nonempty (run_stderr r)));
    [|reflexivity].
  destruct (eval_end _) as [v|e|]; try reflexivity.
  destruct (py_repr v _) as [[text|e|] w3]; reflexivity.
Qed.

End ExecuteProperties.

(** X7: what a call of [execute_python] without reset runs.  It runs the
    code once, first, and never a command; it evaluates the last line of the
    code afterwards exactly when the run ended normally and left both
    buffers empty, so code that prints is not evaluated a second time. *)
Theorem last_line_evaluated_iff_silent (PY : Interpreter) (code : string)
    (s : session) :
  let r := py_exec code (global_namespace s) (world s) in
  let last_line := item_last (split LF (strip code)) in
  let evs := events (execute_python code false s) in
  (evs = [EvExec code] \/ evs = [EvExec code; EvEval last_line])
  /\ (evs = [EvExec code; EvEval last_line]
      <-> run_end r = Done tt /\ run_stdout r = "" /\ run_stderr r = "").
Proof.
  intros r last_line evs. subst evs. rewrite execute_python_events. fold r. fold last_line.
  destruct (run_end r) as [[]|e|].
  - destruct (nonempty (run_stdout r)) eqn:Hout, (nonempty (run_stderr r)) eqn:Herr;
      cbn [negb andb].
    + split; [now left|]. apply nonempty_true in Hout. split; [discriminate | tauto].
    + split; [now left|]. apply nonempty_true in Hout. split; [discriminate | tauto].
    + split; [now left|]. apply nonempty_true in Herr. split; [discriminate | tauto].
    + split; [now right|]. apply nonempty_false in Hout, Herr. tauto.
  - split; [now left|]. split; [discriminate | intros [H _]; discriminate H].
  - split; [now left|]. split; [discriminate | intros [H _]; discriminate H].
Qed.

(** ** The last line of the code *)

Lemma ends_solid_nonempty (s : string) : ends_solid s = true -> s <> "".
Proof. now destruct s. Qed.

Lemma rstrip_solid (s : string) : rstrip s = "" \/ ends_solid (rstrip s) = true.
Proof.
  induction s as [|c s IH]; [now left|].
  cbn [rstrip]. destruct (rstrip s) as [|d t] eqn:E.
  - destruct (py_isspace c) eqn:Hc; [now left|]. right. simpl. now rewrite Hc.
  - right. destruct IH as [IH|IH]; [discriminate|]. exact IH.
Qed.

Lemma rstrip_empty (s : string) :
  rstrip s = "" <-> string_forall py_isspace s = true.
Proof.
  induction s as [|c s IH]; [simpl; tauto|].
  cbn [rstrip string_forall]. destruct (rstrip s) as [|d t] eqn:E.
  - destruct (py_isspace c); cbn [andb].
    + rewrite <- IH. tauto.
    + split; intros H; discriminate H.
  - split; [intros H; discriminate H|]. intros H. apply andb_true_iff in H as [_ H].
    apply IH in H. discriminate H.
Qed.

Lemma lstrip_empty (s : string) :
  lstrip s = "" <-> string_forall py_isspace s = true.
Proof.
  induction s as [|c s IH]; [simpl; tauto|].
  cbn [lstrip string_forall]. destruct (py_isspace c); cbn [andb].
  - exact IH.
  - split; intros H; discriminate H.
Qed.

Lemma lstrip_head (s : string) (c : ascii) (r : string) :
  lstrip s = String c r -> py_isspace c = false.
Proof.
  induction s as [|d s IH]; [discriminate|].
  cbn [lstrip]. destruct (py_isspace d) eqn:Hd; [exact IH|].
  intros [= <- _]. exact Hd.
Qed.

Lemma strip_empty (s : string) :
  strip s = "" <-> string_forall py_isspace s = true.
Proof.
  unfold strip. rewrite rstrip_empty. split.
  - intros H. apply lstrip_empty. destruct (lstrip s) as [|c r] eqn:E; [reflexivity|].
    cbn [string_forall] in H. now rewrite (lstrip_head s c r E) in H.
  - intros H. apply lstrip_empty in H. now rewrite H.
Qed.

Lemma strip_solid (s : string) : strip s = "" \/ ends_solid (strip s) = true.
Proof. apply rstrip_solid. Qed.

Lemma LF_is_space : py_isspace LF = true.
Proof. reflexivity. Qed.

(** The last field of a string that ends in a solid character does so too. *)
Lemma last_field_solid (t : string) :
  ends_solid t = true -> ends_solid (item_last (split LF t)) = true.
Proof.
  unfold item_last. induction t as [|c t IH]; [discriminate|].
  intros H. cbn [split]. destruct t as [|d t'].
  - (* the last character *)
    cbn [ends_solid] in H. destruct (Ascii.eqb_spec c LF) as [->|Hne].
    + now rewrite LF_is_space in H.
    + cbn [split last ends_solid]. exact H.
  - change (ends_solid (String d t') = true) in H. specialize (IH H).
    pose proof (split_not_nil LF (String d t')) as Hnil.
    destruct (Ascii.eqb c LF).
    + destruct (split LF (String d t')) as [|w ws]; [congruence|]. exact IH.
    + destruct (split LF (String d t')) as [|w ws]; [congruence|].
      destruct ws as [|w' ws'].
      * cbn [last] in *. destruct w; [discriminate IH | exact IH].
      * exact IH.
Qed.

Lemma last_of_forall {A} (P : A -> Prop) (l : list A) (d : A) :
  Forall P l -> l <> [] -> P (last l d).
Proof.
  induction 1 as [|x l Hx Hl IH]; [congruence|]. intros _.
  destruct l as [|y l']; [exact Hx|]. apply IH. discriminate.
Qed.

(** X8: the source that the fallback evaluates.  It is one line: it holds no
    line feed.  It is empty exactly when the code is empty or all white
    space, and otherwise it ends with a character that is not white space
    (white space before it, the indentation of the last line, stays). *)
Theorem fallback_source_is_last_line (code : string) :
  let last_line := item_last (split LF (strip code)) in
  string_forall (fun c => negb (Ascii.eqb c LF)) last_line = true
  /\ (last_line = "" <-> string_forall py_isspace code = true)
  /\ (last_line <> "" -> ends_solid last_line = true).
Proof.
  intros last_line. subst last_line.
  split; [| split].
  - apply (last_of_forall _ _ _ (split_fields LF (strip code))), split_not_nil.
  - rewrite <- strip_empty. split.
    + intros H. destruct (strip_solid code) as [E|E]; [exact E|].
      apply last_field_solid, ends_solid_nonempty in E. contradiction.
    + intros ->. reflexivity.
  - intros H. destruct (strip_solid code) as [E|E].
    + rewrite E in H. now contradiction H.
    + now apply last_field_solid.
Qed.

(** ** Blank code *)

Lemma blank_not_word_start c : is_blank c = true -> is_word_start c = false.
Proof. by_cases_on_char c. Qed.

Lemma blank_not_digit c : is_blank c = true -> is_digit c = false.
Proof. by_cases_on_char c. Qed.

Lemma blank_or_LF_is_space c : is_blank_or_LF c = true -> py_isspace c = true.
Proof. by_cases_on_char c. Qed.

Lemma lex_blank (l : string) : string_forall is_blank l = true -> lex PNone l = Some [].
Proof.
  induction l as [|c l IH]; [reflexivity|].
  cbn [string_forall]. intros H. apply andb_true_iff in H as [Hc Hl].
  cbn [lex continues flush].
  rewrite (blank_not_word_start c Hc), (blank_not_digit c Hc), Hc, (IH Hl).
  reflexivity.
Qed.

Lemma split_blank_lines (code : string) :
  string_forall is_blank_or_LF code = true ->
  Forall (fun l => string_forall is_blank l = true) (split LF code).
Proof.
  induction code as [|c code IH]; [repeat constructor|].
  cbn [string_forall]. intros H. apply andb_true_iff in H as [Hc Hcode].
  specialize (IH Hcode). cbn [split].
  destruct (Ascii.eqb c LF) eqn:E.
  - now constructor.
  - unfold is_blank_or_LF in Hc. rewrite E, orb_false_r in Hc.
    destruct (split LF code) as [|w ws].
    + repeat constructor. cbn [string_forall]. now rewrite Hc.
    + inversion IH; subst.
      constructor; [|assumption]. cbn [string_forall]. now rewrite Hc.
Qed.

Lemma lex_lines_blank (lines : list string) :
  Forall (fun l => string_forall is_blank l = true) lines -> lex_lines lines = inr [].
Proof.
  induction 1 as [|l lines Hl _ IH]; [reflexivity|].
  cbn [lex_lines]. now rewrite (lex_blank l Hl).
Qed.

(** X9: blank code.  A call whose code is empty or made of blanks and line
    feeds only runs nothing, evaluates the empty source, which is a syntax
    error that the fallback swallows, and returns the no-output message.  The
    session is left as it was, but for the entry [__builtins__] that [exec]
    gives a namespace that has none. *)
Theorem blank_code_is_silent (frames : exception -> string) (code : string)
    (s : session (PY := interpreter frames)) :
  string_forall is_blank_or_LF code = true ->
  execute_python code false s
  = mkRun (PY := interpreter frames) (Returns "Code executed successfully (no output)")
          (mkSession (PY := interpreter frames)
             (ensure_builtins (global_namespace s)) (world s))
          [EvExec code; EvEval ""]
  /\ (forall b : mvalue,
        dict_get (V := mvalue) "__builtins__" (global_namespace s) = Some b ->
        after (execute_python code false s) = s).
Proof.
  intros Hblank.
  assert (Hstrip : strip code = "").
  { apply strip_empty. apply (string_forall_impl is_blank_or_LF); [|assumption].
    apply blank_or_LF_is_space. }
  assert (Hrun : execute_python code false s
                 = mkRun (PY := interpreter frames)
                     (Returns "Code executed successfully (no output)")
                     (mkSession (PY := interpreter frames)
                        (ensure_builtins (global_namespace s)) (world s))
                     [EvExec code; EvEval ""]).
  { unfold execute_python.
    change (py_exec (Interpreter := interpreter frames)) with exec.
    change (py_eval (Interpreter := interpreter frames)) with eval.
    unfold exec, compile_exec.
    rewrite (lex_lines_blank _ (split_blank_lines code Hblank)), Hstrip.
    cbn [parse_stmts exec_stmts ret run_end run_stdout run_stderr run_namespace run_world
         m_ns m_world m_out m_err nonempty negb andb global_namespace world].
    unfold eval.
    replace (compile_eval (item_last (split LF ""))) with (@inl exception expr syntax_error)
      by (vm_compute; reflexivity).
    cbn [eval_end eval_namespace eval_world].
    now rewrite ensure_builtins_idem. }
  split; [exact Hrun|].
  intros b Hb. rewrite Hrun. cbn [after].
  rewrite (ensure_builtins_bound _ b Hb). now destruct s.
Qed.

Lemma blank_code_is_silent_witness :
  let code := "  " ++ nl ++ String "009" "" ++ nl in
  execute_python code false fresh_session
  = mkRun (Returns "Code executed successfully (no output)") fresh_session
          [EvExec code; EvEval ""]
  /\ after (execute_python code false fresh_session) = fresh_session.
Proof.
  intros code.
  destruct (blank_code_is_silent bare_frames code fresh_session eq_refl) as [Hrun Hafter].
  split; [exact Hrun|]. exact (Hafter (VModule "builtins") eq_refl).
Defined.

(** ** A fault in the middle of the code *)

Lemma split_app_sep (sep : ascii) (a b : string) :
  string_forall (fun c => negb (Ascii.eqb c sep)) a = true ->
  split sep (a ++ String sep b) = a :: split sep b.
Proof.
  induction a as [|c a IH]; cbn [append split string_forall].
  - now rewrite Ascii.eqb_refl.
  - intros H. apply andb_true_iff in H as [Hc Ha]. apply negb_true_iff in Hc.
    now rewrite Hc, (IH Ha).
Qed.

Lemma compile_exec_binding_then_raise (x : string) (z : Z) :
  is_identifier x = true ->
  (int_digits z <= max_str_digits)%nat ->
  compile_exec (binding x z ++ nl ++ "raise ValueError")
  = inr [SAssign x (numeral_expr z); SRaise "ValueError"].
Proof.
  intros Hx Hz. unfold compile_exec, nl. cbn [append].
  rewrite split_app_sep.
  - pose proof (lex_lines_binding x z Hx Hz) as Hline.
    rewrite split_without in Hline.
    + cbn [lex_lines] in Hline |- *.
      destruct (lex PNone (binding x z)) as [[|t ts]|]; try discriminate Hline.
      destruct (binding x z) as [|c r]; [discriminate Hline|].
      destruct (is_blank c); [discriminate Hline|].
      injection Hline as Ht Hts. subst t ts.
      replace (lex_lines (split LF "raise ValueError"))
        with (@inr exception _ [[TName "raise"; TName "ValueError"]])
        by (vm_compute; reflexivity).
      pose proof (identifier_not_reserved x Hx) as Hk.
      cbn [parse_stmts].
      replace (parse_stmt [TName "raise"; TName "ValueError"])
        with (Some (SRaise "ValueError")) by (vm_compute; reflexivity).
      destruct z; cbn [numeral_tokens parse_stmt]; rewrite Hk; reflexivity.
    + unfold binding. rewrite !string_forall_app, (identifier_no_LF x Hx), str_of_Z_no_LF.
      reflexivity.
  - unfold binding. rewrite !string_forall_app, (identifier_no_LF x Hx), str_of_Z_no_LF.
    reflexivity.
Qed.

(** X10: a fault does not undo what the code did before it.  The session
    after a call whose code raised is the one the run has left, and the text
    is made from the exception alone, without the captured output.  So, on a
    session where [__builtins__] is the module [builtins] and [ValueError] is
    not bound to something else, a call that binds [x] and then raises
    [ValueError] returns the fault report, and [x] has its value in the next
    call. *)
Theorem fault_keeps_earlier_bindings :
  (forall (PY : Interpreter) (code : string) (s : session) (e : exception),
      let r := py_exec code (global_namespace s) (world s) in
      run_end r = Raised e ->
      after (execute_python code false s) = mkSession (run_namespace r) (run_world r)
      /\ result (execute_python code false s) = except_Exception e)
  /\ (forall (frames : exception -> string) (x : string) (z : Z)
             (s : session (PY := interpreter frames)),
      is_identifier x = true ->
      (int_digits z <= max_str_digits)%nat ->
      x <> "ValueError" ->
      dict_get (V := mvalue) "ValueError" (global_namespace s) = None ->
      dict_get (V := mvalue) "__builtins__" (global_namespace s)
      = Some (VModule "builtins") ->
      let t := execute_python (binding x z ++ nl ++ "raise ValueError") false s in
      result t
      = Returns ("Error executing code:" ++ nl
                 ++ "Traceback (most recent call last):" ++ nl
                 ++ frames (mkExc ValueError "" "") ++ "ValueError" ++ nl)
      /\ result (execute_python x false (after t)) = Returns ("Result: " ++ str_of_Z z)).
Proof.
  split.
  - intros PY code s e r Hend. subst r.
    now rewrite (execute_python_raised code s e Hend).
  - intros frames x z s Hx Hz Hne Hfree Hb t.
    assert (Ht : t = mkRun (PY := interpreter frames)
                   (except_Exception (PY := interpreter frames) (mkExc ValueError "" ""))
                   (mkSession (PY := interpreter frames)
                      (dict_set x (VInt z) (global_namespace s)) (world s))
                   [EvExec (binding x z ++ nl ++ "raise ValueError")]).
    { subst t. unfold execute_python.
      change (py_exec (Interpreter := interpreter frames)) with exec.
      unfold exec. rewrite (compile_exec_binding_then_raise x z Hx Hz).
      rewrite (ensure_builtins_bound _ _ Hb).
      unfold exec_stmts, exec_stmt, bind, assign, lookup, run_builtins.
      rewrite eval_numeral. cbn [m_ns m_world m_out m_err m_builtins].
      rewrite dict_get_set.
      destruct (String.eqb_spec x "ValueError") as [E|_]; [contradiction|].
      change (dict_get (V := value (Interpreter := interpreter frames)))
        with (dict_get (V := mvalue)).
      rewrite Hfree, Hb. reflexivity. }
    rewrite Ht. cbn [result after]. split; [reflexivity|].
    rewrite (execute_name frames x (VInt z)); [| assumption |].
    + cbn [result]. unfold repr. cbn [fst]. now rewrite repr_value_int.
    + cbn [global_namespace]. now rewrite dict_get_set, String.eqb_refl.
Qed.

Lemma fault_keeps_earlier_bindings_witness :
  let t := execute_python ("count = 3" ++ nl ++ "raise ValueError") false fresh_session in
  result t
  = Returns ("Error executing code:" ++ nl
             ++ "Traceback (most recent call last):" ++ nl ++ "ValueError" ++ nl)
  /\ result (execute_python "count" false (after t)) = Returns "Result: 3".
Proof.
  apply (proj2 fault_keeps_earlier_bindings bare_frames "count" 3%Z fresh_session).
  - reflexivity.
  - apply Nat.leb_le. reflexivity.
  - discriminate.
  - reflexivity.
  - reflexivity.
Defined.

(** ** The order of the listing *)

Lemma filter_dict_set_hidden {V} (keep : string -> bool) (k : string) (v : V)
    (d : dict V) :
  keep k = false ->
  filter (fun kv => keep (fst kv)) (dict_set k v d) = filter (fun kv => keep (fst kv)) d.
Proof.
  intros Hk. induction d as [|[k0 v0] d IH]; cbn [dict_set filter fst].
  - now rewrite Hk.
  - destruct (String.eqb_spec k0 k) as [->|Hne]; cbn [filter fst].
    + now rewrite Hk.
    + now rewrite IH.
Qed.

(** Binding a key that is present changes its entry where it stands. *)
Lemma dict_set_bound {V} (k : string) (v old : V) (d : dict V) :
  dict_get k d = Some old ->
  exists d1 d2,
    d = (d1 ++ (k, old) :: d2)%list
    /\ dict_set k v d = (d1 ++ (k, v) :: d2)%list.
Proof.
  induction d as [|[k0 v0] d IH]; [discriminate|].
  cbn [dict_get dict_set]. destruct (String.eqb_spec k0 k) as [->|Hne].
  - intros [= ->]. now exists [], d.
  - intros H. destruct (IH H) as (d1 & d2 & -> & ->).
    now exists ((k0, v0) :: d1), d2.
Qed.

Lemma dict_get_none_keys {V} (k : string) (d : dict V) :
  dict_get k d = None -> ~ In k (dict_keys d).
Proof.
  induction d as [|[k0 v0] d IH]; [intros _ []|].
  cbn [dict_get dict_keys map fst]. destruct (String.eqb_spec k0 k) as [->|Hne].
  - discriminate.
  - intros H [E|Hin]; [congruence | now apply IH].
Qed.

(** X11: names that start with an underscore are never listed.  Binding a
    key that the test of [list_variables] leaves out, to any value, makes no
    difference to the text it returns. *)
Theorem hidden_binding_not_listed (PY : Interpreter) (s : session) (k : string)
    (v : value) :
  dict_wf (global_namespace s) ->
  visible k = false ->
  result (list_variables (mkSession (dict_set k v (global_namespace s)) (world s)))
  = result (list_variables s).
Proof.
  intros Hwf Hk. rewrite <- listed_visible in Hk.
  unfold list_variables. cbn [global_namespace world].
  rewrite (comprehension_hidden k v (global_namespace s) Hk).
  destruct (comprehension _ _ _) as [[[|kv d]|e|] w]; reflexivity.
Qed.

Lemma hidden_binding_not_listed_witness :
  result (list_variables
            (mkSession (PY := interpreter bare_frames)
               (dict_set "_cache" (VInt 1) (global_namespace fresh_session))
               (world fresh_session)))
  = result (list_variables fresh_session).
Proof.
  apply (hidden_binding_not_listed (interpreter bare_frames) fresh_session
           "_cache" (VInt 1)).
  - repeat constructor. intros [].
  - reflexivity.
Defined.

(** X12: the listing follows the order of first binding.  When the [repr]
    of the listed values returns and leaves the world as it is, a listed
    name that is bound for the first time is listed last, and a listed name
    that is bound again keeps its place, with its new value. *)
Theorem listing_keeps_insertion_order (PY : Interpreter) (shown : value -> string)
    (s : session) (k : string) (v : value) :
  dict_wf (global_namespace s) ->
  visible k = true ->
  let entries := filter (fun kv => visible (fst kv)) (global_namespace s) in
  let s' := mkSession (dict_set k v (global_namespace s)) (world s) in
  (forall k0 v0, In (k0, v0) (global_namespace s') -> visible k0 = true ->
                 py_repr v0 (world s) = (Done (shown v0), world s)) ->
  (dict_get k (global_namespace s) = None ->
   result (list_variables s') = Returns (listing shown (entries ++ [(k, v)])%list))
  /\ (forall old, dict_get k (global_namespace s) = Some old ->
      exists before behind,
        entries = (before ++ (k, old) :: behind)%list
        /\ result (list_variables s')
           = Returns (listing shown (before ++ (k, v) :: behind)%list)).
Proof.
  intros Hwf Hk entries s' Hshown. subst entries.
  assert (Hl : result (list_variables s')
               = Returns (listing shown
                            (filter (fun kv => visible (fst kv))
                                    (dict_set k v (global_namespace s))))).
  { rewrite (list_variables_listing shown s'); [reflexivity | | exact Hshown].
    now apply dict_set_wf. }
  rewrite Hl. clear Hl Hshown s'. split.
  - intros Hnone.
    rewrite (dict_set_fresh k v (global_namespace s) (dict_get_none_keys k _ Hnone)).
    rewrite filter_app. cbn [filter fst]. now rewrite Hk.
  - intros old Hold.
    destruct (dict_set_bound k v old _ Hold) as (d1 & d2 & E1 & E2).
    rewrite E2, E1, !filter_app. cbn [filter fst]. rewrite Hk.
    now eexists _, _.
Qed.

Lemma listing_keeps_insertion_order_witness :
  let s := execute_all (PY := interpreter bare_frames) ["a = 1"; "b = 2"] fresh_session in
  result (list_variables (mkSession (PY := interpreter bare_frames)
                            (dict_set "c" (VInt 3) (global_namespace s)) (world s)))
  = Returns ("Current session variables:" ++ nl ++ nl
             ++ "a = 1" ++ nl ++ "b = 2" ++ nl ++ "c = 3").
Proof.
  intros s.
  assert (Hwf : dict_wf (global_namespace s)).
  { repeat constructor; simpl; intuition discriminate. }
  refine (proj1 (listing_keeps_insertion_order (interpreter bare_frames)
                   (fun v => match v with VInt z => str_of_Z z | _ => "" end)
                   s "c" (VInt 3) Hwf eq_refl _) eq_refl).
  intros k0 v0 Hin Hk0. vm_compute in Hin.
  destruct Hin as [Hin|[Hin|[Hin|[Hin|[]]]]]; injection Hin as <- <-;
    try discriminate Hk0; reflexivity.
Defined.

(** ** The validation of the identifier *)

(** X14: what the validation of [install_package] accepts.  An identifier
    passes [re.match] exactly when it is a name of the pattern (a letter or
    digit, then letters, digits, dots, underscores and hyphens), or such a
    name followed by one line feed. *)
Theorem validation_accepts_exactly (package : string) :
  re_match_package package = true <->
  filename_safe package = true
  \/ exists name, package = name ++ nl /\ filename_safe name = true.
Proof. apply re_match_package_spec. Qed.
